(** * Incremental OpenAlex -> MongoDB synchronisation

    A shallow embedding of [openalex_creation_update.py] (and of the
    connection helper of [utils.py]) together with the properties of the
    run that the specification states.

    Python values are embedded as follows.
    - a [dict] with string keys is a [gmap string value];
    - an ISO timestamp is a [string], parsed by [fromisoformat] into a
      [datetime] (the seven calendar fields and an optional UTC offset);
    - an exception is a constructor of [exn]; a call that may raise returns
      a [result];
    - the body of [run] lives in a state-and-exception monad [M] whose state
      holds the two collections, the number of clock readings taken and the
      number of database commands issued.  The world outside the program
      (clock, network, database faults) is a record [world]. *)

From Stdlib Require Import ZArith String Ascii List Bool Lia.
From stdpp Require Import base option list strings gmap.

Local Open Scope string_scope.
Local Open Scope Z_scope.

(** ** Python values and exceptions *)

Inductive value : Type :=
| VNone
| VBool (b : bool)
| VInt (z : Z)
| VStr (s : string).

#[global] Instance value_eq_dec : EqDecision value.
Proof. solve_decision. Defined.

(** Truth value of a Python object ([bool(v)]). *)
Definition truthy (v : value) : bool :=
  match v with
  | VNone => false
  | VBool b => b
  | VInt z => negb (z =? 0)
  | VStr s => negb (String.eqb s "")
  end.

Abbreviation dict := (gmap string value).

Inductive exn : Type :=
| KeyError (key : string)
| ValueError (what : string)
| TypeError (what : string)
| UnboundLocalError (name : string)
| InvalidDocument (what : string)
| ExternalError (what : string).

#[global] Instance exn_eq_dec : EqDecision exn.
Proof. solve_decision. Defined.

Inductive result (A : Type) : Type :=
| Ok (a : A)
| Raise (e : exn).
Arguments Ok {A} a.
Arguments Raise {A} e.

#[global] Instance result_eq_dec {A} `{EqDecision A} : EqDecision (result A).
Proof. solve_decision. Defined.

#[global] Instance result_ret : MRet result := fun A a => Ok a.
#[global] Instance result_bind : MBind result := fun A B k r =>
  match r with
  | Ok a => k a
  | Raise e => Raise e
  end.

(** [d[key]] *)
Definition getitem (d : dict) (key : string) : result value :=
  match d !! key with
  | Some v => Ok v
  | None => Raise (KeyError key)
  end.

(** ** [datetime] *)

Module Datetime.

Record civil : Type := Civil {
  year : Z; month : Z; day : Z;
  hour : Z; minute : Z; second : Z; microsecond : Z
}.

(** [tzinfo] is [None] for a naive datetime and the UTC offset in
    microseconds for an aware one. *)
Record datetime : Type := Datetime {
  fields : civil;
  tzinfo : option Z
}.

#[global] Instance civil_eq_dec : EqDecision civil.
Proof. solve_decision. Defined.
#[global] Instance datetime_eq_dec : EqDecision datetime.
Proof. solve_decision. Defined.

Definition is_leap (y : Z) : bool :=
  (y mod 4 =? 0) && (negb (y mod 100 =? 0) || (y mod 400 =? 0)).

Definition days_in_month (y m : Z) : Z :=
  match m with
  | 1 => 31 | 2 => if is_leap y then 29 else 28 | 3 => 31 | 4 => 30
  | 5 => 31 | 6 => 30 | 7 => 31 | 8 => 31 | 9 => 30 | 10 => 31
  | 11 => 30 | 12 => 31
  | _ => 0
  end.

(** The checks of the [datetime] constructor. *)
Definition check_date_fields (y m d : Z) : bool :=
  (1 <=? y) && (y <=? 9999) && (1 <=? m) && (m <=? 12)
  && (1 <=? d) && (d <=? days_in_month y m).

Definition check_time_fields (h mi s us : Z) : bool :=
  (0 <=? h) && (h <=? 23) && (0 <=? mi) && (mi <=? 59)
  && (0 <=? s) && (s <=? 59) && (0 <=? us) && (us <=? 999999).

Definition valid (c : civil) : bool :=
  check_date_fields (year c) (month c) (day c)
  && check_time_fields (hour c) (minute c) (second c) (microsecond c).

(** *** Order

    [datetime.__gt__]: two naive datetimes, or two aware ones with the same
    offset, are compared field by field; two aware ones with different
    offsets by the instants they denote; a naive one and an aware one are
    not comparable. *)

Definition lex (c : civil) : list Z :=
  [year c; month c; day c; hour c; minute c; second c; microsecond c].

Fixpoint list_gt (a b : list Z) : bool :=
  match a, b with
  | x :: a', y :: b' => (y <? x) || ((x =? y) && list_gt a' b')
  | _ :: _, [] => true
  | [], _ => false
  end.

Definition days_before_year (y : Z) : Z :=
  let p := y - 1 in p * 365 + p / 4 - p / 100 + p / 400.

Definition days_before_month (y m : Z) : Z :=
  match m with
  | 1 => 0 | 2 => 31 | 3 => 59 | 4 => 90 | 5 => 120 | 6 => 151 | 7 => 181
  | 8 => 212 | 9 => 243 | 10 => 273 | 11 => 304 | 12 => 334
  | _ => 0
  end + (if (2 <? m) && is_leap y then 1 else 0).

(** [date.toordinal()]: 1 for 0001-01-01. *)
Definition toordinal (c : civil) : Z :=
  days_before_year (year c) + days_before_month (year c) (month c) + day c.

(** Microseconds from the start of day zero of the proleptic calendar. *)
Definition micros (c : civil) : Z :=
  (((toordinal c * 24 + hour c) * 60 + minute c) * 60 + second c) * 1000000
  + microsecond c.

(** The point of the time line a datetime denotes: wall-clock time for a
    naive one, UTC for an aware one. *)
Definition instant (d : datetime) : Z :=
  micros (fields d) - default 0 (tzinfo d).

(** Whether a datetime carries a UTC offset. *)
Definition aware (d : datetime) : bool :=
  match tzinfo d with
  | Some _ => true
  | None => false
  end.

Definition gt (a b : datetime) : result bool :=
  match tzinfo a, tzinfo b with
  | None, None => Ok (list_gt (lex (fields a)) (lex (fields b)))
  | Some oa, Some ob =>
      if oa =? ob then Ok (list_gt (lex (fields a)) (lex (fields b)))
      else Ok (instant b <? instant a)
  | _, _ => Raise (TypeError "can't compare offset-naive and offset-aware datetimes")
  end.

(** *** Parsing: [datetime.fromisoformat]

    The grammar is the one of CPython 3.7 to 3.10, the output of
    [isoformat]:
    [YYYY-MM-DD[*HH[:MM[:SS[.fff[fff]]]][+HH:MM[:SS[.ffffff]]]]].
    Later versions accept these strings too, and further forms (the basic
    format, a trailing [Z]) that are rejected here.  A time is read
    whenever the string is longer than the date. *)

Definition digit (c : ascii) : option Z :=
  let n := Z.of_N (N_of_ascii c) in
  if (48 <=? n) && (n <=? 57) then Some (n - 48) else None.

Fixpoint digits_acc (acc : Z) (s : string) : option Z :=
  match s with
  | EmptyString => Some acc
  | String c s' =>
      match digit c with
      | Some d => digits_acc (acc * 10 + d) s'
      | None => None
      end
  end.

(** [int(s)] for a non-empty string of decimal digits. *)
Definition int_of (s : string) : option Z :=
  match s with
  | EmptyString => None
  | _ => digits_acc 0 s
  end.

(** [s[i:j]] *)
Definition slice (s : string) (i j : nat) : string :=
  String.substring i (j - i) s.

(** [s[i:]] *)
Definition slice_from (s : string) (i : nat) : string :=
  String.substring i (String.length s - i) s.

Definition char_at (s : string) (i : nat) : option ascii := String.get i s.

Definition is_char (o : option ascii) (c : ascii) : bool :=
  match o with
  | Some c' => Ascii.eqb c' c
  | None => false
  end.

Definition parse_isoformat_date (dtstr : string) : option (Z * Z * Z) :=
  y ← int_of (slice dtstr 0 4);
  if negb (is_char (char_at dtstr 4) "-") then None else
  m ← int_of (slice dtstr 5 7);
  if negb (is_char (char_at dtstr 7) "-") then None else
  d ← int_of (slice dtstr 8 10);
  if (String.length dtstr =? 10)%nat then Some (y, m, d) else None.

(** The loop over the three components [HH], [MM], [SS]: [comp] counts
    the components still allowed, [pos] is the read position.  It
    returns the components read and the position reached. *)
Fixpoint parse_hh_mm_ss (comp : nat) (tstr : string) (pos : nat)
  : option (list Z * nat) :=
  match comp with
  | O => Some ([], pos)
  | S comp' =>
      if (String.length tstr - pos <? 2)%nat then None else
      v ← int_of (slice tstr pos (pos + 2));
      let pos := (pos + 2)%nat in
      match char_at tstr pos, comp' with
      | None, _ | _, O => Some ([v], pos)
      | Some c, _ =>
          if negb (Ascii.eqb c ":") then None else
          '(vs, pos') ← parse_hh_mm_ss comp' tstr (pos + 1)%nat;
          Some (v :: vs, pos')
      end
  end.

Definition parse_hh_mm_ss_ff (tstr : string) : option (Z * Z * Z * Z) :=
  '(comps, pos) ← parse_hh_mm_ss 3 tstr 0;
  let h := nth 0 comps 0 in
  let mi := nth 1 comps 0 in
  let s := nth 2 comps 0 in
  if (pos <? String.length tstr)%nat then
    if negb (is_char (char_at tstr pos) ".") then None else
    let rest := slice_from tstr (pos + 1) in
    let n := String.length rest in
    if (n =? 3)%nat then us ← int_of rest; Some (h, mi, s, us * 1000)
    else if (n =? 6)%nat then us ← int_of rest; Some (h, mi, s, us)
    else None
  else Some (h, mi, s, 0).

(** [s.find(c)] *)
Fixpoint find (c : ascii) (s : string) : option nat :=
  match s with
  | EmptyString => None
  | String c' s' => if Ascii.eqb c' c then Some O else S <$> find c s'
  end.

Definition max_offset : Z := 24 * 3600 * 1000000.

Definition parse_isoformat_time (tstr : string)
  : option (Z * Z * Z * Z * option Z) :=
  if (String.length tstr <? 2)%nat then None else
  let tz_pos :=
    match find "-" tstr with
    | Some i => Some i
    | None => find "+" tstr
    end in
  match tz_pos with
  | None => t ← parse_hh_mm_ss_ff tstr; Some (t, None)
  | Some i =>
      t ← parse_hh_mm_ss_ff (slice tstr 0 i);
      let tzstr := slice_from tstr (i + 1) in
      let n := String.length tzstr in
      if negb ((n =? 5) || (n =? 8) || (n =? 15))%nat then None else
      '(h, mi, s, us) ← parse_hh_mm_ss_ff tzstr;
      let off := ((h * 60 + mi) * 60 + s) * 1000000 + us in
      let off := if is_char (char_at tstr i) "-" then - off else off in
      if (- max_offset <? off) && (off <? max_offset)
      then Some (t, Some off) else None
  end.

Definition parse (date_string : string) : option datetime :=
  let dstr := slice date_string 0 10 in
  let tstr := slice_from date_string 11 in
  '(y, m, d) ← parse_isoformat_date dstr;
  '(h, mi, s, us, tz) ←
    (if (String.length date_string <=? 10)%nat then Some (0, 0, 0, 0, None)
     else parse_isoformat_time tstr);
  if check_date_fields y m d && check_time_fields h mi s us
  then Some (Datetime (Civil y m d h mi s us) tz)
  else None.

Definition fromisoformat (date_string : value) : result datetime :=
  match date_string with
  | VStr s =>
      match parse s with
      | Some d => Ok d
      | None => Raise (ValueError s)
      end
  | _ => Raise (TypeError "fromisoformat: argument must be str")
  end.

(** *** Printing: [datetime.isoformat] *)

Definition digit_char (d : Z) : ascii := ascii_of_N (Z.to_N (48 + d mod 10)).

(** [n] decimal digits of [z], most significant first. *)
Fixpoint pad (n : nat) (z : Z) (tail : string) : string :=
  match n with
  | O => tail
  | S n' => pad n' (z / 10) (String (digit_char z) tail)
  end.

Definition format_offset (off : Z) : string :=
  let sign := if off <? 0 then "-" else "+" in
  let a := Z.abs off in
  let us := a mod 1000000 in
  let s := (a / 1000000) mod 60 in
  let mi := (a / 60000000) mod 60 in
  let h := a / 3600000000 in
  sign ++ pad 2 h (":" ++ pad 2 mi
    (if (s =? 0) && (us =? 0) then ""
     else ":" ++ pad 2 s (if us =? 0 then "" else "." ++ pad 6 us ""))).

Definition isoformat (d : datetime) : string :=
  let c := fields d in
  pad 4 (year c) ("-" ++ pad 2 (month c) ("-" ++ pad 2 (day c) ("T" ++
  pad 2 (hour c) (":" ++ pad 2 (minute c) (":" ++ pad 2 (second c)
    ((if microsecond c =? 0 then "" else "." ++ pad 6 (microsecond c) "")
     ++ match tzinfo d with
        | None => ""
        | Some off => format_offset off
        end)))))).

End Datetime.

Import Datetime.

(** ** The external source: queries and pagers

    [Works().filter] applied to the filter parameters, followed, when sampling is enabled, by
    [.sample(size, seed=seed)] only records what was asked for; [paginate]
    records the pagination method and the page size. *)

Record query : Type := Query {
  q_filter : dict;
  q_sample : option (value * value)
}.

Record pager : Type := Pager {
  p_query : query;
  p_method : string;
  p_per_page : value
}.

(** What iterating a pager yields: the records of a page, or the exception
    its request ended in. *)
Inductive fetch : Type :=
| Page (records : list dict)
| Broken (e : exn).

(** ** The document store

    A collection is the list of its documents in insertion order, each with
    the [_id] the store gave it; [_id]s are handed out in increasing order.
    A document of the target collection is the record that was stored; a
    document of the run-log is one of the two dict literals of [run]. *)

Record collection (A : Type) : Type := Collection {
  docs : list (nat * A);
  next_id : nat
}.
Arguments Collection {A} docs next_id.
Arguments docs {A} c.
Arguments next_id {A} c.

Inductive log_entry : Type :=
| Success (run_date : string) (db_count new modified : nat)
| Failure (run_date : string) (error : exn).

Definition run_date (e : log_entry) : string :=
  match e with
  | Success d _ _ _ => d
  | Failure d _ => d
  end.

(** Whether the driver can encode the dict as BSON.  The Success literal
    holds a string and three integers.  The Failure literal holds, under
    ["error"], the exception object itself, for which BSON has no
    encoding. *)
Definition encodable (entry : log_entry) : bool :=
  match entry with
  | Success _ _ _ _ => true
  | Failure _ _ => false
  end.

(** [pymongo.results.UpdateResult]: [raw_result['updatedExisting']] and
    [modified_count]. *)
Record update_result : Type := UpdateResult {
  updatedExisting : bool;
  modified_count : nat
}.

Section Store.
Context {A : Type}.

(** [c.count_documents({})] *)
Definition count_documents (c : collection A) : nat := length (docs c).

(** [c.insert_one(a)] *)
Definition insert_one (c : collection A) (a : A) : collection A :=
  Collection (docs c ++ [(next_id c, a)]) (S (next_id c)).

Fixpoint greatest_id (best : option (nat * A)) (l : list (nat * A))
  : option (nat * A) :=
  match l with
  | [] => best
  | (i, a) :: l' =>
      greatest_id
        (match best with
         | Some (j, _) => if (j <? i)%nat then Some (i, a) else best
         | None => Some (i, a)
         end) l'
  end.

(** [c.find().limit(1).sort({"_id": -1})], the cursor's first element. *)
Definition find_latest (c : collection A) : option A :=
  snd <$> greatest_id None (docs c).

(** Every [_id] in use is below the next one to be handed out. *)
Definition ids_fresh (c : collection A) : Prop :=
  Forall (fun d => (fst d < next_id c)%nat) (docs c).
End Store.

(** The filter [{"id": k}]: the field equals [k]; a null [k] also matches
    a document without the field. *)
Definition matches (k : value) (d : dict) : bool :=
  match d !! "id" with
  | Some v => bool_decide (v = k)
  | None => bool_decide (k = VNone)
  end.

(** Replaces the first document the filter matches; says whether the
    replacement changed it. *)
Fixpoint replace_first (k : value) (r : dict) (l : list (nat * dict))
  : option (list (nat * dict) * bool) :=
  match l with
  | [] => None
  | (i, d) :: l' =>
      if matches k d then Some ((i, r) :: l', bool_decide (d ≠ r))
      else '(l'', changed) ← replace_first k r l'; Some ((i, d) :: l'', changed)
  end.

(** [c.replace_one({"id": k}, r, upsert=True)] *)
Definition replace_one (c : collection dict) (k : value) (r : dict)
  : collection dict * update_result :=
  match replace_first k r (docs c) with
  | Some (l, changed) =>
      (Collection l (next_id c), UpdateResult true (if changed then 1 else 0)%nat)
  | None => (insert_one c r, UpdateResult false 0%nat)
  end.

(** ** The world around a run and the state it changes *)

Record world : Type := World {
  (** the [n]-th reading of [datetime.now()] *)
  clock : nat -> civil;
  (** [None] when [get_connection] returns, the exception it raises otherwise *)
  connect : string -> option exn;
  (** what the source yields for a pager *)
  source : pager -> list fetch;
  (** the exception the [n]-th database command ends in, if it fails *)
  db_fault : nat -> option exn
}.

Record state : Type := State {
  works : collection dict;
  meta : collection log_entry;
  ticks : nat;
  ops : nat
}.

Definition set_works (c : collection dict) (st : state) : state :=
  State c (meta st) (ticks st) (ops st).
Definition set_meta (c : collection log_entry) (st : state) : state :=
  State (works st) c (ticks st) (ops st).

(** Computations that read and change the state and may raise; what was
    changed before an exception stays changed. *)
Definition M (A : Type) : Type := state -> result A * state.

#[global] Instance M_ret : MRet M := fun A a st => (Ok a, st).
#[global] Instance M_bind : MBind M := fun A B k m st =>
  match m st with
  | (Ok a, st') => k a st'
  | (Raise e, st') => (Raise e, st')
  end.

Definition raise {A} (e : exn) : M A := fun st => (Raise e, st).

Definition lift {A} (r : result A) : M A := fun st => (r, st).

(** [try: body except Exception as e: handler(e)] *)
Definition try_except {A} (body : M A) (handler : exn -> M A) : M A :=
  fun st =>
    match body st with
    | (Ok a, st') => (Ok a, st')
    | (Raise e, st') => handler e st'
    end.

Definition CONFIG : string := "config.json".
Definition DEFAULT_DATE : string := "2010-01-01T00:00:00.000000".

Section Program.
Variable w : world.

(** [datetime.now()] *)
Definition datetime_now : M datetime := fun st =>
  (Ok (Datetime (clock w (ticks st)) None),
   State (works st) (meta st) (S (ticks st)) (ops st)).

(** One command sent to the database: it fails as the world says, and
    otherwise does [f]. *)
Definition command {A} (f : state -> A * state) : M A := fun st =>
  let st1 := State (works st) (meta st) (ticks st) (S (ops st)) in
  match db_fault w (ops st) with
  | Some e => (Raise e, st1)
  | None => let '(a, st2) := f st1 in (Ok a, st2)
  end.

(** [utils.get_connection] *)
Definition get_connection (db_name : string) : result unit :=
  match connect w db_name with
  | Some e => Raise e
  | None => Ok tt
  end.

(** The value returned in both branches of [is_record_updated]. *)
Definition later_than (record : dict) (last_update_date : value)
  : result bool :=
  u ← getitem record "updated_date";
  du ← fromisoformat u;
  dw ← fromisoformat last_update_date;
  b ← gt du dw;
  if b : bool then Ok true else
  c ← getitem record "created_date";
  dc ← fromisoformat c;
  dw ← fromisoformat last_update_date;
  gt dc dw.

(** [last_update_date] is [VNone] when the argument is left out. *)
Definition is_record_updated (record : dict) (last_update_date : value)
  : M bool :=
  last_update_date ←
    (if negb (truthy last_update_date)
     then now ← datetime_now; mret (VStr (isoformat now))
     else mret last_update_date);
  lift (later_than record last_update_date).

Definition get_query (filter_params sample : dict) : result query :=
  let query := Query filter_params None in
  enabled ← getitem sample "enabled";
  if truthy enabled then
    size ← getitem sample "size";
    seed ← getitem sample "seed";
    Ok (Query (q_filter query) (Some (size, seed)))
  else Ok query.

Definition get_pager (query : query) (pagination : dict) : result pager :=
  page_size ← getitem pagination "page_size";
  Ok (Pager query "page" page_size).

(** Lines 115 to 118 of [run]. *)
Definition read_watermark : M string :=
  n ← command (fun st => (count_documents (meta st), st));
  let is_log_empty := (n =? 0)%nat in
  if is_log_empty then mret DEFAULT_DATE
  else
    first ← command (fun st => (find_latest (meta st), st));
    match first with
    | Some entry => mret (run_date entry)
    | None => raise (ExternalError "StopIteration")
    end.

(** The list comprehension of line 125. *)
Fixpoint updated_records (page : list dict) (latest_update_date : string)
  : M (list dict) :=
  match page with
  | [] => mret []
  | record :: page' =>
      b ← is_record_updated record (VStr latest_update_date);
      rest ← updated_records page' latest_update_date;
      mret (if b : bool then record :: rest else rest)
  end.

(** [works.replace_one({"id": k}, record, upsert=True)] *)
Definition works_replace_one (k : value) (record : dict) : M update_result :=
  command (fun st =>
    let '(c, response) := replace_one (works st) k record in
    (response, set_works c st)).

(** The loop of lines 129 to 136. *)
Fixpoint upsert_all (updated : list dict) (responses : list update_result)
  : M (list update_result) :=
  match updated with
  | [] => mret responses
  | record :: updated' =>
      k ← lift (getitem record "id");
      response ← works_replace_one k record;
      upsert_all updated' (responses ++ [response])
  end.

(** The loop of lines 122 to 136. *)
Fixpoint for_pages (pages : list fetch) (latest_update_date : string)
    (responses : list update_result) : M (list update_result) :=
  match pages with
  | [] => mret responses
  | Broken e :: _ => raise e
  | Page page :: pages' =>
      updated ← updated_records page latest_update_date;
      responses ← upsert_all updated responses;
      for_pages pages' latest_update_date responses
  end.

(** Lines 112 to 143 up to the dict literal of the Success entry. *)
Definition success_entry (filter_params pagination sample : dict)
  : M log_entry :=
  query ← lift (get_query filter_params sample);
  pager ← lift (get_pager query pagination);
  latest_update_date ← read_watermark;
  responses ← for_pages (source w pager) latest_update_date [];
  now ← datetime_now;
  db_count ← command (fun st => (count_documents (works st), st));
  let new :=
    sum_list (map (fun res => Nat.b2n (negb (updatedExisting res))) responses) in
  let modified := sum_list (map modified_count responses) in
  mret (Success (isoformat now) db_count new modified).

(** [meta.insert_one(entry)]: once the command has its connection, the
    dict is encoded, which fails for one the driver cannot encode, and only
    then inserted. *)
Definition append (entry : log_entry) : M unit :=
  connected ← command (fun st => (tt, st));
  if encodable entry
  then (fun st => (Ok connected, set_meta (insert_one (meta st) entry) st)) : M unit
  else raise (InvalidDocument "cannot encode object").

(** The [try] block once [works] and [meta] are bound. *)
Definition sync (filter_params pagination sample : dict) : M unit :=
  entry ← success_entry filter_params pagination sample;
  append entry.

(** The [except] block.  [meta] is a local of [run]: it is bound only
    once line 110 has run.  The dict it builds holds the exception object
    [e] itself. *)
Definition handler (meta_bound : bool) (e : exn) : M unit :=
  if meta_bound then
    now ← datetime_now;
    append (Failure (isoformat now) e)
  else raise (UnboundLocalError "meta").

(** [works_name] and [meta_name] name two different collections of the
    database [db_name]: the state holds one collection for each. *)
Definition run (filter_params pagination sample : dict)
    (db_name works_name meta_name : string) : M unit :=
  match get_connection db_name with
  | Raise e => handler false e
  | Ok _ => try_except (sync filter_params pagination sample) (handler true)
  end.

End Program.

(** ** Sample data *)

Definition mk_record (id updated created : string) : dict :=
  <["id" := VStr id]>
    (<["updated_date" := VStr updated]> (<["created_date" := VStr created]> ∅)).

Definition record_A : dict :=
  mk_record "A" "2024-01-02T00:00:00.000000" "2024-01-01T00:00:00.000000".

Definition empty_store : state := State (Collection [] 0) (Collection [] 0) 0 0.

(** A world where the clock shows the days of March 2024, the connection
    and every database command succeed, and the source yields [pages]. *)
Definition quiet (pages : list fetch) : world :=
  World (fun n => Civil 2024 3 (1 + Z.of_nat n) 12 0 0 0)
        (fun _ => None) (fun _ => pages) (fun _ => None).


(** A store whose run-log holds the Success entry of one earlier run. *)
Definition store_after_success : state :=
  State (Collection [] 0)
        (insert_one (Collection [] 0) (Success "2024-01-01T00:00:00" 0 0 0))
        0 0.

(** A source that breaks after its first page. *)
Definition broken_source : list fetch :=
  [Page [record_A]; Broken (ExternalError "timeout"); Page []].

(** Two versions of one work, the second updated a day after the first. *)
Definition record_A' : dict :=
  mk_record "A" "2024-01-03T00:00:00.000000" "2024-01-01T00:00:00.000000".

(** The state a second run starts in when the first started in [st] and
    left [st']: the target collection is the one the first run left, the
    run-log is put back as it was, so that the watermark is the same. *)
Definition rerun_from (st st' : state) : state :=
  State (works st') (meta st) (ticks st') (ops st').

Definition no_sample : dict := <["enabled" := VBool false]> ∅.
Definition page_200 : dict := <["page_size" := VInt 200]> ∅.

(** A world where [get_connection] raises. *)
Definition offline : world :=
  World (fun n => Civil 2024 3 (1 + Z.of_nat n) 12 0 0 0)
        (fun _ => Some (ExternalError "InvalidURI"))
        (fun _ => []) (fun _ => None).

(** A work that was last updated before the default watermark. *)
Definition record_old : dict :=
  mk_record "O" "2009-06-01T00:00:00.000000" "2009-01-01T00:00:00.000000".

(** A work whose update date is not a timestamp. *)
Definition record_bad : dict :=
  mk_record "B" "yesterday" "2024-01-01T00:00:00.000000".

(** A stale work without an [id]. *)
Definition record_no_id : dict :=
  <["updated_date" := VStr "2024-01-02T00:00:00.000000"]>
    (<["created_date" := VStr "2024-01-01T00:00:00.000000"]> ∅).

(** A work with an update date only. *)
Definition record_no_created : dict :=
  <["id" := VStr "N"]> (<["updated_date" := VStr "2024-01-02T00:00:00.000000"]> ∅).

(** A store whose target collection holds one document, [record_old]. *)
Definition store_with_old : state :=
  State (insert_one (Collection [] 0) record_old) (Collection [] 0) 0 0.

(** The records a page sequence yields, in order, page boundaries
    forgotten. *)
Definition records_of (pages : list fetch) : list dict :=
  flat_map (fun f => match f with
                     | Page p => p
                     | Broken _ => []
                     end) pages.

(** Whether the filter can judge a record against a watermark. *)
Definition judged (W : string) (r : dict) : Prop :=
  exists b, later_than r (VStr W) = Ok b.

(** ** Notions the properties are stated with *)

(** The state once one more database command has been sent. *)
Definition sent (st : state) : state :=
  State (works st) (meta st) (ticks st) (S (ops st)).

(** The value the filter [{"id": record["id"]}] is built from. *)
Definition key (r : dict) : value := default VNone (r !! "id").

(** The content of the first document the filter [{"id": k}] matches. *)
Fixpoint first_match (k : value) (l : list (nat * dict)) : option dict :=
  match l with
  | [] => None
  | (_, d) :: l' => if matches k d then Some d else first_match k l'
  end.

(** What an upsert does to the collection it finds: it inserts a document
    that was not there, changes the content of one that was, or leaves an
    identical one as it is. *)
Inductive outcome : Type := Inserted | Changed | Unchanged.

#[global] Instance outcome_eq_dec : EqDecision outcome.
Proof. solve_decision. Defined.

Definition classify (c : collection dict) (r : dict) : outcome :=
  match first_match (key r) (docs c) with
  | None => Inserted
  | Some d => if bool_decide (d = r) then Unchanged else Changed
  end.

Definition upsert (c : collection dict) (r : dict) : collection dict :=
  fst (replace_one c (key r) r).

(** The collection after the upserts of [rs], in order. *)
Definition stored (c : collection dict) (rs : list dict) : collection dict :=
  fold_left upsert rs c.

(** What each upsert of [rs] does, in order. *)
Fixpoint outcomes (c : collection dict) (rs : list dict) : list outcome :=
  match rs with
  | [] => []
  | r :: rs' => classify c r :: outcomes (upsert c r) rs'
  end.

Definition count_outcome (o : outcome) (l : list outcome) : nat :=
  length (filter (fun x => x = o) l).

(** The records of the pages that are later than a non-empty watermark. *)
Definition stale (W : string) (r : dict) : Prop :=
  later_than r (VStr W) = Ok true.

#[global] Instance stale_dec (W : string) (r : dict) : Decision (stale W r).
Proof. unfold stale. apply _. Defined.

Definition retained (W : string) (pages : list fetch) : list dict :=
  flat_map (fun f => match f with
                     | Page p => filter (stale W) p
                     | Broken _ => []
                     end) pages.

Definition valid_date (y m d : Z) : Prop :=
  1 <= y /\ 1 <= m <= 12 /\ 1 <= d <= days_in_month y m.

Definition ordinal (y m d : Z) : Z :=
  days_before_year y + days_before_month y m + d.

(** The response the store gives for each kind of upsert. *)
Definition response_of (o : outcome) : update_result :=
  match o with
  | Inserted => UpdateResult false 0
  | Changed => UpdateResult true 1
  | Unchanged => UpdateResult true 0
  end.

(** What the state keeps through a step: the run-log, and a target
    collection that only upserts have touched. *)
Definition only_upserts (st st' : state) : Prop :=
  meta st' = meta st /\ exists rs, works st' = stored (works st) rs.

(** The exception the append of the [except] block ends in: that of the
    command when it fails, and otherwise that of the encoder, which cannot
    encode the exception object of the Failure entry. *)
Definition unlogged (w : world) (st : state) : exn :=
  match db_fault w (ops st) with
  | Some e => e
  | None => InvalidDocument "cannot encode object"
  end.

(** * Properties *)

(** ** The calendar *)

Example parse_default :
  parse "2010-01-01T00:00:00.000000"
  = Some (Datetime (Civil 2010 1 1 0 0 0 0) None).
Proof. reflexivity. Qed.

Example parse_date_only :
  parse "2017-08-08" = Some (Datetime (Civil 2017 8 8 0 0 0 0) None).
Proof. reflexivity. Qed.

Example parse_aware :
  parse "2024-01-02T03:04:05.678+01:00"
  = Some (Datetime (Civil 2024 1 2 3 4 5 678000) (Some 3600000000)).
Proof. reflexivity. Qed.

Example parse_bad_day : parse "2023-02-29T00:00:00" = None.
Proof. reflexivity. Qed.

Example isoformat_naive :
  isoformat (Datetime (Civil 2024 1 2 3 4 5 678) None)
  = "2024-01-02T03:04:05.000678".
Proof. reflexivity. Qed.

Lemma parse_empty : parse "" = None.
Proof. reflexivity. Qed.

(** A parsed datetime went through the checks of the constructor. *)
Lemma parse_valid (s : string) (d : datetime) :
  parse s = Some d -> valid (fields d) = true.
Proof.
  unfold parse. intros H.
  destruct (parse_isoformat_date _) as [[[y m] dd]|]; simpl in H; [|discriminate].
  destruct (if (String.length s <=? 10)%nat then _ else _)
    as [[[[[h mi] sec] us] tz]|];
    simpl in H; [|discriminate].
  destruct (check_date_fields y m dd && check_time_fields h mi sec us) eqn:E;
    [|discriminate].
  injection H as <-. exact E.
Qed.

Lemma days_before_year_succ (y : Z) :
  days_before_year (y + 1)
  = days_before_year y + 365 + (if is_leap y then 1 else 0).
Proof.
  unfold days_before_year, is_leap.
  replace (y + 1 - 1) with y by lia.
  destruct (y mod 4 =? 0) eqn:E4; destruct (y mod 100 =? 0) eqn:E100;
    destruct (y mod 400 =? 0) eqn:E400; simpl;
    rewrite ?Z.eqb_eq, ?Z.eqb_neq in *;
    Z.div_mod_to_equations; lia.
Qed.

Lemma days_before_year_mono (y y' : Z) :
  y <= y' -> days_before_year y <= days_before_year y'.
Proof.
  unfold days_before_year. intros H. Z.div_mod_to_equations. lia.
Qed.

Lemma month_cases (m : Z) :
  1 <= m <= 12 ->
  m = 1 \/ m = 2 \/ m = 3 \/ m = 4 \/ m = 5 \/ m = 6 \/ m = 7 \/ m = 8
  \/ m = 9 \/ m = 10 \/ m = 11 \/ m = 12.
Proof. lia. Qed.

(** The days of a month end where the next month's begin. *)
Lemma days_before_month_succ (y m : Z) :
  1 <= m <= 11 ->
  days_before_month y (m + 1) = days_before_month y m + days_in_month y m.
Proof.
  intros H.
  assert (Hm : m = 1 \/ m = 2 \/ m = 3 \/ m = 4 \/ m = 5 \/ m = 6 \/ m = 7
               \/ m = 8 \/ m = 9 \/ m = 10 \/ m = 11) by lia.
  unfold days_before_month, days_in_month.
  repeat (destruct Hm as [-> | Hm]); try subst m;
    destruct (is_leap y); reflexivity.
Qed.

Lemma days_before_month_mono (y m m' : Z) :
  1 <= m -> m <= m' -> m' <= 12 ->
  days_before_month y m <= days_before_month y m'.
Proof.
  intros H1 H2 H3.
  pose proof (month_cases m ltac:(lia)) as Hm.
  pose proof (month_cases m' ltac:(lia)) as Hm'.
  unfold days_before_month.
  repeat (destruct Hm as [-> | Hm]); try subst m;
    repeat (destruct Hm' as [-> | Hm']); try subst m';
    try lia; destruct (is_leap y); simpl; lia.
Qed.

Lemma days_before_month_year (y m : Z) :
  1 <= m <= 12 ->
  0 <= days_before_month y m
  /\ days_before_month y m + days_in_month y m
     <= 365 + (if is_leap y then 1 else 0).
Proof.
  intros H. pose proof (month_cases m H) as Hm.
  unfold days_before_month, days_in_month.
  repeat (destruct Hm as [-> | Hm]); try subst m;
    destruct (is_leap y); simpl; lia.
Qed.

Lemma ordinal_year_lt (y m d y' m' d' : Z) :
  valid_date y m d -> valid_date y' m' d' -> y < y' ->
  ordinal y m d < ordinal y' m' d'.
Proof.
  intros (Hy & Hm & Hd) (Hy' & Hm' & Hd') Hlt. unfold ordinal.
  pose proof (days_before_month_year y m Hm) as [_ Hup].
  pose proof (days_before_month_year y' m' Hm') as [Hlo _].
  pose proof (days_before_year_succ y) as Hs.
  pose proof (days_before_year_mono (y + 1) y' ltac:(lia)). lia.
Qed.

Lemma ordinal_month_lt (y m d m' d' : Z) :
  valid_date y m d -> valid_date y m' d' -> m < m' ->
  ordinal y m d < ordinal y m' d'.
Proof.
  intros (Hy & Hm & Hd) (_ & Hm' & Hd') Hlt. unfold ordinal.
  pose proof (days_before_month_succ y m ltac:(lia)) as Hs.
  pose proof (days_before_month_mono y (m + 1) m' ltac:(lia) ltac:(lia) ltac:(lia)).
  lia.
Qed.

Lemma valid_fields (c : civil) :
  valid c = true ->
  valid_date (year c) (month c) (day c)
  /\ 0 <= hour c <= 23 /\ 0 <= minute c <= 59 /\ 0 <= second c <= 59
  /\ 0 <= microsecond c <= 999999.
Proof.
  unfold valid, check_date_fields, check_time_fields, valid_date.
  rewrite !andb_true_iff, !Z.leb_le. lia.
Qed.

(** Comparing the fields one after the other is comparing positions on the
    time line. *)
Lemma list_gt_micros (a b : civil) :
  valid a = true -> valid b = true ->
  list_gt (lex a) (lex b) = (micros b <? micros a).
Proof.
  intros Ha Hb.
  apply valid_fields in Ha as (Hda & Hha & Hma & Hsa & Hua).
  apply valid_fields in Hb as (Hdb & Hhb & Hmb & Hsb & Hub).
  unfold micros, toordinal. fold (ordinal (year a) (month a) (day a)).
  fold (ordinal (year b) (month b) (day b)).
  destruct a as [y m d h mi s us], b as [y' m' d' h' mi' s' us']; simpl in *.
  assert (Hy : y' < y -> ordinal y' m' d' < ordinal y m d)
    by (intros; now apply ordinal_year_lt).
  assert (Hy' : y < y' -> ordinal y m d < ordinal y' m' d')
    by (intros; now apply ordinal_year_lt).
  destruct (Z.ltb_spec y' y) as [Hlt|Hge]; simpl.
  { symmetry. apply Z.ltb_lt. specialize (Hy Hlt). lia. }
  destruct (Z.eqb_spec y y') as [<-|Hne]; simpl.
  2:{ symmetry. apply Z.ltb_ge. specialize (Hy' ltac:(lia)). lia. }
  assert (Hm : m' < m -> ordinal y m' d' < ordinal y m d)
    by (intros; now apply ordinal_month_lt).
  assert (Hm' : m < m' -> ordinal y m d < ordinal y m' d')
    by (intros; now apply ordinal_month_lt).
  destruct (Z.ltb_spec m' m) as [Hlt|Hge']; simpl.
  { symmetry. apply Z.ltb_lt. specialize (Hm Hlt). lia. }
  destruct (Z.eqb_spec m m') as [<-|Hne]; simpl.
  2:{ symmetry. apply Z.ltb_ge. specialize (Hm' ltac:(lia)). lia. }
  clear Hy Hy' Hm Hm'. unfold ordinal.
  generalize (days_before_year y + days_before_month y m). intros base.
  repeat match goal with
  | |- context [?x <? ?y] => destruct (Z.ltb_spec x y); simpl
  | |- context [?x =? ?y] => destruct (Z.eqb_spec x y); simpl
  end; try reflexivity; lia.
Qed.

(** On datetimes that can be compared, [gt] is the strict order of the
    instants. *)
Lemma gt_instant (a b : datetime) :
  valid (fields a) = true -> valid (fields b) = true ->
  aware a = aware b ->
  gt a b = Ok (instant b <? instant a).
Proof.
  intros Ha Hb Htz. unfold gt, instant. unfold aware in Htz.
  destruct (tzinfo a) as [oa|], (tzinfo b) as [ob|]; try discriminate;
    cbn [default].
  - destruct (Z.eqb_spec oa ob) as [->|Hne]; [|reflexivity].
    rewrite list_gt_micros by assumption. f_equal.
    destruct (Z.ltb_spec (micros (fields b)) (micros (fields a)));
      symmetry; [apply Z.ltb_lt | apply Z.ltb_ge]; lia.
  - rewrite list_gt_micros by assumption. f_equal. f_equal; lia.
Qed.

Lemma gt_mixed (a b : datetime) :
  aware a <> aware b -> exists what, gt a b = Raise (TypeError what).
Proof.
  unfold gt, aware.
  destruct (tzinfo a), (tzinfo b); intros H; try congruence; eauto.
Qed.

(** *** Printing and parsing *)

Section RoundTrip.

#[local] Arguments digit_char : simpl never.
#[local] Arguments digit : simpl never.
#[local] Arguments Z.mul : simpl never.
#[local] Arguments Z.add : simpl never.
#[local] Arguments Z.div : simpl never.
#[local] Arguments Z.modulo : simpl never.

Lemma digit_digit_char (d : Z) : digit (digit_char d) = Some (d mod 10).
Proof.
  assert (E : d mod 10 = 0 \/ d mod 10 = 1 \/ d mod 10 = 2 \/ d mod 10 = 3
              \/ d mod 10 = 4 \/ d mod 10 = 5 \/ d mod 10 = 6 \/ d mod 10 = 7
              \/ d mod 10 = 8 \/ d mod 10 = 9)
    by (pose proof (Z.mod_pos_bound d 10); lia).
  unfold digit_char.
  repeat (destruct E as [-> | E]); try rewrite E; reflexivity.
Qed.

(** A printed digit is not one of the separators. *)
Lemma digit_char_not (d : Z) (c : ascii) :
  digit c = None -> Ascii.eqb (digit_char d) c = false.
Proof.
  intros Hc. destruct (Ascii.eqb_spec (digit_char d) c) as [<-|]; [|reflexivity].
  rewrite digit_digit_char in Hc. discriminate.
Qed.

Lemma digits2 (z : Z) :
  0 <= z <= 99 -> (0 * 10 + (z / 10) mod 10) * 10 + z mod 10 = z.
Proof. intros H. Z.div_mod_to_equations. lia. Qed.

Lemma digits4 (z : Z) :
  0 <= z <= 9999 ->
  (((0 * 10 + (((z / 10) / 10) / 10) mod 10) * 10 + ((z / 10) / 10) mod 10) * 10
   + (z / 10) mod 10) * 10 + z mod 10 = z.
Proof. intros H. Z.div_mod_to_equations. lia. Qed.

Lemma digits6 (z : Z) :
  0 <= z <= 999999 ->
  (((((0 * 10 + (((((z / 10) / 10) / 10) / 10) / 10) mod 10) * 10
      + ((((z / 10) / 10) / 10) / 10) mod 10) * 10
     + (((z / 10) / 10) / 10) mod 10) * 10
    + ((z / 10) / 10) mod 10) * 10
   + (z / 10) mod 10) * 10 + z mod 10 = z.
Proof. intros H. Z.div_mod_to_equations. lia. Qed.

Lemma days_in_month_le (y m : Z) : days_in_month y m <= 31.
Proof.
  unfold days_in_month.
  repeat match goal with
  | |- context [match ?x with _ => _ end] => destruct x
  end; lia.
Qed.

(** What [isoformat] prints for a naive datetime, [fromisoformat] reads
    back. *)
Lemma parse_isoformat (c : civil) :
  valid c = true -> parse (isoformat (Datetime c None)) = Some (Datetime c None).
Proof.
  intros Hv. pose proof (valid_fields c Hv) as ((Hy & Hm & Hd) & Hh & Hmi & Hs & Hus).
  assert (Hy' : year c <= 9999).
  { unfold valid, check_date_fields in Hv.
    rewrite !andb_true_iff, !Z.leb_le in Hv. lia. }
  pose proof (days_in_month_le (year c) (month c)) as Hdim.
  unfold isoformat. cbn [fields tzinfo].
  destruct (Z.eqb_spec (microsecond c) 0) as [E|E].
  - cbv [pad String.append].
    unfold parse, parse_isoformat_date, slice, slice_from. cbn.
    rewrite !digit_digit_char. cbn.
    rewrite !(digit_char_not _ "-"), !(digit_char_not _ "+") by reflexivity.
    cbn. rewrite digits4, !digits2 by lia.
    destruct c as [y m d h mi s us]. simpl in *. subst us.
    unfold valid in Hv. simpl in Hv. rewrite Hv. reflexivity.
  - cbv [pad String.append].
    unfold parse, parse_isoformat_date, slice, slice_from. cbn.
    rewrite !digit_digit_char. cbn.
    rewrite !(digit_char_not _ "-"), !(digit_char_not _ "+") by reflexivity.
    cbn. rewrite !digit_digit_char. cbn.
    rewrite digits4, !digits2, digits6 by lia.
    destruct c as [y m d h mi s us]. simpl in *.
    unfold valid in Hv. simpl in Hv. rewrite Hv. reflexivity.
Qed.

End RoundTrip.

(** ** Running computations *)

Lemma bind_run {A B} (m : M A) (k : A -> M B) (st : state) :
  (m ≫= k) st
  = match m st with
    | (Ok a, st') => k a st'
    | (Raise e, st') => (Raise e, st')
    end.
Proof. reflexivity. Qed.

Lemma bind_ok {A B} (m : M A) (k : A -> M B) (st st' : state) (a : A) :
  m st = (Ok a, st') -> (m ≫= k) st = k a st'.
Proof. intros H. rewrite bind_run, H. reflexivity. Qed.

Lemma bind_raise {A B} (m : M A) (k : A -> M B) (st st' : state) (e : exn) :
  m st = (Raise e, st') -> (m ≫= k) st = (Raise e, st').
Proof. intros H. rewrite bind_run, H. reflexivity. Qed.

Lemma ret_run {A} (a : A) (st : state) : (mret a : M A) st = (Ok a, st).
Proof. reflexivity. Qed.

Lemma lift_run {A} (r : result A) (st : state) : lift r st = (r, st).
Proof. reflexivity. Qed.

Lemma command_ok {A} (w : world) (f : state -> A * state) (st : state) :
  db_fault w (ops st) = None ->
  command w f st = (Ok (fst (f (sent st))), snd (f (sent st))).
Proof.
  intros H. unfold command. rewrite H. fold (sent st).
  destruct (f (sent st)). reflexivity.
Qed.

Lemma command_fault {A} (w : world) (f : state -> A * state) (st : state)
    (e : exn) :
  db_fault w (ops st) = Some e -> command w f st = (Raise e, sent st).
Proof. intros H. unfold command. rewrite H. reflexivity. Qed.

(** ** The staleness filter *)

Lemma is_record_updated_truthy (w : world) (record : dict) (v : value)
    (st : state) :
  truthy v = true ->
  is_record_updated w record v st = (later_than record v, st).
Proof.
  intros H. unfold is_record_updated. rewrite H. reflexivity.
Qed.

Lemma parse_truthy (s : string) (d : datetime) :
  parse s = Some d -> truthy (VStr s) = true.
Proof. destruct s; [discriminate | reflexivity]. Qed.

Lemma later_than_instants (record : dict) (U C W : string)
    (du dc dw : datetime) :
  record !! "updated_date" = Some (VStr U) ->
  record !! "created_date" = Some (VStr C) ->
  parse U = Some du -> parse C = Some dc -> parse W = Some dw ->
  aware du = aware dw -> aware dc = aware dw ->
  later_than record (VStr W)
  = Ok ((instant dw <? instant du) || (instant dw <? instant dc)).
Proof.
  intros HU HC Hu Hc Hw Hau Hac.
  pose proof (parse_valid _ _ Hu). pose proof (parse_valid _ _ Hc).
  pose proof (parse_valid _ _ Hw).
  unfold later_than, getitem, fromisoformat.
  rewrite HU. cbn [mbind result_bind]. rewrite Hu, Hw. cbn [mbind result_bind].
  rewrite gt_instant by assumption. cbn [mbind result_bind].
  destruct (instant dw <? instant du); [reflexivity|].
  rewrite HC. cbn [mbind result_bind]. rewrite Hc. cbn [mbind result_bind].
  rewrite gt_instant by assumption. reflexivity.
Qed.

(** C2 (amended).  For a record whose [updated_date] and [created_date]
    parse, and a watermark that parses, all three with a UTC offset or all
    three without one, [is_record_updated] returns true exactly when the
    update instant or the creation instant is strictly later than the
    watermark's; when both equal the watermark's it returns false.  The
    state is left as it was. *)
Theorem is_record_updated_strict (w : world) (record : dict) (st : state)
    (U C W : string) (du dc dw : datetime) :
  record !! "updated_date" = Some (VStr U) ->
  record !! "created_date" = Some (VStr C) ->
  parse U = Some du -> parse C = Some dc -> parse W = Some dw ->
  aware du = aware dw -> aware dc = aware dw ->
  is_record_updated w record (VStr W) st
  = (Ok ((instant dw <? instant du) || (instant dw <? instant dc)), st)
  /\ (instant du = instant dw -> instant dc = instant dw ->
      is_record_updated w record (VStr W) st = (Ok false, st)).
Proof.
  intros HU HC Hu Hc Hw Hau Hac.
  assert (E : is_record_updated w record (VStr W) st
              = (Ok ((instant dw <? instant du) || (instant dw <? instant dc)), st)).
  { rewrite is_record_updated_truthy by (eapply parse_truthy; eassumption).
    erewrite later_than_instants by eassumption. reflexivity. }
  split; [exact E|].
  intros E1 E2. rewrite E, E1, E2, Z.ltb_irrefl. reflexivity.
Qed.

Lemma is_record_updated_strict_witness :
  is_record_updated (quiet []) record_A (VStr DEFAULT_DATE) empty_store
  = (Ok true, empty_store)
  /\ is_record_updated (quiet [])
       (mk_record "B" DEFAULT_DATE DEFAULT_DATE) (VStr DEFAULT_DATE) empty_store
     = (Ok false, empty_store).
Proof.
  split.
  - apply (is_record_updated_strict (quiet []) record_A empty_store
             "2024-01-02T00:00:00.000000" "2024-01-01T00:00:00.000000"
             DEFAULT_DATE
             (Datetime (Civil 2024 1 2 0 0 0 0) None)
             (Datetime (Civil 2024 1 1 0 0 0 0) None)
             (Datetime (Civil 2010 1 1 0 0 0 0) None));
      reflexivity.
  - apply (is_record_updated_strict (quiet [])
             (mk_record "B" DEFAULT_DATE DEFAULT_DATE) empty_store
             DEFAULT_DATE DEFAULT_DATE DEFAULT_DATE
             (Datetime (Civil 2010 1 1 0 0 0 0) None)
             (Datetime (Civil 2010 1 1 0 0 0 0) None)
             (Datetime (Civil 2010 1 1 0 0 0 0) None));
      reflexivity.
Defined.

(** C2 as stated fails: both dates of the record parse and so does the
    watermark, but the dates carry a UTC offset and the watermark does not,
    and [is_record_updated] raises instead of returning. *)
Lemma is_record_updated_mixed_counterexample :
  let record :=
    mk_record "A" "2024-01-02T00:00:00.000000+00:00"
                  "2024-01-01T00:00:00.000000+00:00" in
  parse "2024-01-02T00:00:00.000000+00:00"
    = Some (Datetime (Civil 2024 1 2 0 0 0 0) (Some 0))
  /\ parse "2024-01-01T00:00:00.000000+00:00"
    = Some (Datetime (Civil 2024 1 1 0 0 0 0) (Some 0))
  /\ parse DEFAULT_DATE = Some (Datetime (Civil 2010 1 1 0 0 0 0) None)
  /\ is_record_updated (quiet []) record (VStr DEFAULT_DATE) empty_store
     = (Raise (TypeError "can't compare offset-naive and offset-aware datetimes"),
        empty_store).
Proof. repeat split. Qed.

(** C10.  An empty-string watermark is treated as a missing one: for
    every falsy value the clock is read once and its reading, printed and
    parsed again, is what the two dates are compared with.  For a record
    with naive dates the result is then true exactly when one of them is
    strictly later than the reading of the clock. *)
Theorem is_record_updated_falsy (w : world) (record : dict) (st : state) :
  is_record_updated w record (VStr "") st = is_record_updated w record VNone st
  /\ (forall v : value, truthy v = false ->
      is_record_updated w record v st
      = (later_than record
           (VStr (isoformat (Datetime (clock w (ticks st)) None))),
         State (works st) (meta st) (S (ticks st)) (ops st)))
  /\ (forall (v : value) (U C : string) (du dc : datetime),
      truthy v = false ->
      valid (clock w (ticks st)) = true ->
      record !! "updated_date" = Some (VStr U) ->
      record !! "created_date" = Some (VStr C) ->
      parse U = Some du -> parse C = Some dc ->
      aware du = false -> aware dc = false ->
      fst (is_record_updated w record v st)
      = Ok ((micros (clock w (ticks st)) <? instant du)
            || (micros (clock w (ticks st)) <? instant dc))).
Proof.
  assert (Hfalsy : forall v : value, truthy v = false ->
            is_record_updated w record v st
            = (later_than record
                 (VStr (isoformat (Datetime (clock w (ticks st)) None))),
               State (works st) (meta st) (S (ticks st)) (ops st))).
  { intros v Hv. unfold is_record_updated. rewrite Hv. reflexivity. }
  split; [reflexivity|]. split; [exact Hfalsy|].
  intros v U C du dc Hv Hnow HU HC Hu Hc Hau Hac.
  rewrite (Hfalsy v Hv). cbn [fst].
  rewrite (later_than_instants record U C _ du dc
             (Datetime (clock w (ticks st)) None) HU HC Hu Hc
             (parse_isoformat _ Hnow) Hau Hac).
  unfold instant at 1 3. cbn [fields tzinfo default]. rewrite Z.sub_0_r.
  reflexivity.
Qed.

Lemma is_record_updated_falsy_witness :
  fst (is_record_updated (quiet []) record_A (VStr "") empty_store) = Ok false
  /\ fst (is_record_updated (quiet [])
            (mk_record "C" "2024-03-01T12:00:00.000001" "2024-01-01")
            VNone empty_store) = Ok true.
Proof.
  split.
  - apply (proj2 (proj2 (is_record_updated_falsy (quiet []) record_A empty_store))
             (VStr "") "2024-01-02T00:00:00.000000" "2024-01-01T00:00:00.000000"
             (Datetime (Civil 2024 1 2 0 0 0 0) None)
             (Datetime (Civil 2024 1 1 0 0 0 0) None));
      reflexivity.
  - apply (proj2 (proj2 (is_record_updated_falsy (quiet [])
                           (mk_record "C" "2024-03-01T12:00:00.000001" "2024-01-01")
                           empty_store))
             VNone "2024-03-01T12:00:00.000001" "2024-01-01"
             (Datetime (Civil 2024 3 1 12 0 0 1) None)
             (Datetime (Civil 2024 1 1 0 0 0 0) None));
      reflexivity.
Defined.

(** ** Queries and pagers *)

(** C9 (amended).  [get_pager] asks for page-numbered pagination with the
    configured page size for every query, sampled or not, and leaves the
    query as it is. *)
Theorem get_pager_page (query : query) (pagination : dict) (page_size : value) :
  pagination !! "page_size" = Some page_size ->
  get_pager query pagination = Ok (Pager query "page" page_size).
Proof.
  intros H. unfold get_pager, getitem. rewrite H. reflexivity.
Qed.

Lemma get_pager_page_witness :
  get_pager (Query ∅ None) (<["page_size" := VInt 200]> ∅)
  = Ok (Pager (Query ∅ None) "page" (VInt 200)).
Proof. apply (get_pager_page (Query ∅ None) _ (VInt 200)). reflexivity. Defined.

(** C9 as stated fails: with sampling switched off the pager is still
    page-numbered, not cursor-based. *)
Lemma get_pager_cursor_counterexample :
  let sample : dict := <["enabled" := VBool false]> ∅ in
  let pagination : dict := <["page_size" := VInt 200]> ∅ in
  exists q p,
    get_query ∅ sample = Ok q /\ q_sample q = None
    /\ get_pager q pagination = Ok p
    /\ p_method p = "page" /\ p_method p <> "cursor".
Proof.
  eexists _, _. repeat split; [reflexivity..|]. discriminate.
Qed.

(** ** The run-log *)

Lemma greatest_id_app {A} (best : option (nat * A)) (l l' : list (nat * A)) :
  greatest_id best (l ++ l') = greatest_id (greatest_id best l) l'.
Proof.
  revert best. induction l as [|[i a] l IH]; intros best; simpl; [reflexivity|].
  apply IH.
Qed.

(** The best candidate never has a greater [_id] than the bound on those
    seen. *)
Lemma greatest_id_bound {A} (n : nat) (best : option (nat * A))
    (l : list (nat * A)) :
  Forall (fun d => (fst d < n)%nat) l ->
  match best with Some (j, _) => (j < n)%nat | None => True end ->
  match greatest_id best l with Some (j, _) => (j < n)%nat | None => True end.
Proof.
  intros Hl. revert best. induction Hl as [|[i a] l Hi _ IH]; intros best Hb;
    simpl; [exact Hb|].
  apply IH. destruct best as [[j b]|]; simpl in *; [|exact Hi].
  destruct (j <? i)%nat; simpl; assumption.
Qed.

Lemma find_latest_insert_one {A} (c : collection A) (a : A) :
  ids_fresh c -> find_latest (insert_one c a) = Some a.
Proof.
  intros H. unfold find_latest, insert_one. simpl.
  rewrite greatest_id_app.
  pose proof (greatest_id_bound (next_id c) None (docs c) H I) as Hb.
  destruct (greatest_id None (docs c)) as [[j b]|]; simpl; [|reflexivity].
  apply Nat.ltb_lt in Hb. rewrite Hb. reflexivity.
Qed.

Lemma ids_fresh_insert_one {A} (c : collection A) (a : A) :
  ids_fresh c -> ids_fresh (insert_one c a).
Proof.
  unfold ids_fresh, insert_one. simpl. intros H.
  apply Forall_app. split.
  - eapply Forall_impl; [exact H|]. simpl. intros; lia.
  - constructor; [simpl; lia | constructor].
Qed.

Lemma read_watermark_empty (w : world) (st : state) :
  db_fault w (ops st) = None -> docs (meta st) = [] ->
  read_watermark w st = (Ok DEFAULT_DATE, sent st).
Proof.
  intros H0 He. unfold read_watermark.
  erewrite bind_ok by (apply command_ok; exact H0).
  cbn [fst snd]. unfold count_documents. cbn [meta sent].
  rewrite He. reflexivity.
Qed.

Lemma read_watermark_insert_one (w : world) (st : state)
    (log : collection log_entry) (entry : log_entry) :
  db_fault w (ops st) = None -> db_fault w (S (ops st)) = None ->
  ids_fresh log -> meta st = insert_one log entry ->
  read_watermark w st = (Ok (run_date entry), sent (sent st)).
Proof.
  intros H0 H1 Hf Hm. unfold read_watermark.
  erewrite bind_ok by (apply command_ok; exact H0).
  cbn [fst snd]. unfold count_documents. cbn [meta sent].
  rewrite Hm. unfold insert_one at 1. cbn [docs].
  rewrite length_app. cbn [length].
  replace (length (docs log) + 1 =? 0)%nat with false
    by (symmetry; apply Nat.eqb_neq; lia).
  erewrite bind_ok by (apply command_ok; exact H1).
  cbn [fst snd meta sent]. rewrite Hm.
  rewrite find_latest_insert_one by assumption. reflexivity.
Qed.

(** C6.  With an empty run-log the watermark is the constant
    ["2010-01-01T00:00:00.000000"]; otherwise it is the [run_date] of the
    entry inserted last, whatever the dates written in the entries are. *)
Theorem read_watermark_latest (w : world) (st : state) :
  db_fault w (ops st) = None ->
  (docs (meta st) = [] ->
   fst (read_watermark w st) = Ok "2010-01-01T00:00:00.000000")
  /\ (forall (log : collection log_entry) (entry : log_entry),
      ids_fresh log -> meta st = insert_one log entry ->
      db_fault w (S (ops st)) = None ->
      fst (read_watermark w st) = Ok (run_date entry)).
Proof.
  intros H0. split.
  - intros He. rewrite read_watermark_empty by assumption. reflexivity.
  - intros log entry Hf Hm H1.
    rewrite (read_watermark_insert_one w st log entry) by assumption.
    reflexivity.
Qed.

Lemma read_watermark_latest_witness :
  let log := insert_one (Collection [] 0) (Success "2024-05-01T00:00:00" 7 7 0) in
  let entry := Failure "2023-01-01T00:00:00" (ExternalError "timeout") in
  fst (read_watermark (quiet [])
         (State (Collection [] 0) (insert_one log entry) 0 0))
  = Ok "2023-01-01T00:00:00".
Proof.
  intros log entry.
  refine (proj2 (read_watermark_latest (quiet [])
                   (State (Collection [] 0) (insert_one log entry) 0 0) _)
            log entry _ _ _).
  - reflexivity.
  - repeat constructor.
  - reflexivity.
  - reflexivity.
Defined.

(** ** The target collection *)

(** A record is matched by the filter built from its own [id]. *)
Lemma matches_key (r : dict) : matches (key r) r = true.
Proof.
  unfold matches, key. destruct (r !! "id"); simpl; try reflexivity.
  apply bool_decide_eq_true_2. reflexivity.
Qed.

(** A document is matched by the filter of one key only. *)
Lemma matches_unique (k k' : value) (d : dict) :
  matches k d = true -> matches k' d = true -> k = k'.
Proof.
  unfold matches. destruct (d !! "id"); rewrite !bool_decide_eq_true; congruence.
Qed.

Lemma replace_first_None (k : value) (r : dict) (l : list (nat * dict)) :
  first_match k l = None -> replace_first k r l = None.
Proof.
  induction l as [|[i d] l IH]; simpl; [reflexivity|].
  destruct (matches k d); [discriminate|].
  intros H. rewrite (IH H). reflexivity.
Qed.

Lemma replace_first_Some (k : value) (r d : dict) (l : list (nat * dict)) :
  first_match k l = Some d ->
  exists l', replace_first k r l = Some (l', bool_decide (d ≠ r))
             /\ length l' = length l
             /\ first_match k l' = (if matches k r then Some r else first_match k l')
             /\ (forall k', k' <> k -> matches k r = true ->
                 first_match k' l' = first_match k' l).
Proof.
  induction l as [|[i d'] l IH]; simpl; [discriminate|].
  destruct (matches k d') eqn:E.
  - intros [= ->]. eexists. split; [reflexivity|]. split; [reflexivity|].
    split.
    + simpl. destruct (matches k r); reflexivity.
    + intros k' Hne Hr. simpl.
      destruct (matches k' r) eqn:E1.
      { exfalso. apply Hne. eapply matches_unique; eassumption. }
      destruct (matches k' d) eqn:E2; [|reflexivity].
      exfalso. apply Hne. eapply matches_unique; eassumption.
  - intros H. destruct (IH H) as (l' & -> & Hlen & Hsame & Hother).
    eexists. split; [reflexivity|]. split; [simpl; congruence|]. split.
    + simpl. rewrite E. exact Hsame.
    + intros k' Hne Hr. simpl. rewrite (Hother k' Hne Hr). reflexivity.
Qed.

(** Replacing a document by an identical one changes nothing. *)
Lemma replace_first_same (k : value) (r : dict) (l : list (nat * dict)) :
  first_match k l = Some r -> replace_first k r l = Some (l, false).
Proof.
  induction l as [|[i d] l IH]; simpl; [discriminate|].
  destruct (matches k d).
  - intros [= ->]. rewrite bool_decide_eq_false_2 by (intros H; now apply H).
    reflexivity.
  - intros H. rewrite (IH H). reflexivity.
Qed.

Lemma first_match_app (k : value) (l l' : list (nat * dict)) :
  first_match k (l ++ l')
  = match first_match k l with
    | Some d => Some d
    | None => first_match k l'
    end.
Proof.
  induction l as [|[i d] l IH]; simpl; [reflexivity|].
  destruct (matches k d); [reflexivity | exact IH].
Qed.

(** The response of [replace_one] tells what the upsert did. *)
Lemma replace_one_response (c : collection dict) (r : dict) :
  snd (replace_one c (key r) r)
  = match classify c r with
    | Inserted => UpdateResult false 0
    | Changed => UpdateResult true 1
    | Unchanged => UpdateResult true 0
    end.
Proof.
  unfold replace_one, classify.
  destruct (first_match (key r) (docs c)) as [d|] eqn:E.
  - destruct (replace_first_Some _ r _ _ E) as (l' & -> & _). simpl.
    destruct (decide (d = r)) as [->|Hne].
    + rewrite (bool_decide_eq_true_2 (r = r)) by reflexivity.
      rewrite (bool_decide_eq_false_2 (r ≠ r)) by (intros H; now apply H).
      reflexivity.
    + rewrite (bool_decide_eq_false_2 (d = r)) by assumption.
      rewrite (bool_decide_eq_true_2 (d ≠ r)) by assumption. reflexivity.
  - rewrite (replace_first_None _ _ _ E). reflexivity.
Qed.

(** After an upsert the record is the first document its filter matches,
    and the first match of every other filter is what it was. *)
Lemma first_match_upsert (c : collection dict) (r : dict) :
  first_match (key r) (docs (upsert c r)) = Some r
  /\ forall k, k <> key r ->
     first_match k (docs (upsert c r)) = first_match k (docs c).
Proof.
  unfold upsert, replace_one.
  destruct (first_match (key r) (docs c)) as [d|] eqn:E.
  - destruct (replace_first_Some _ r _ _ E) as (l' & -> & _ & Hsame & Hother).
    simpl. rewrite matches_key in Hsame. split; [exact Hsame|].
    intros k Hk. apply Hother; [exact Hk | apply matches_key].
  - rewrite (replace_first_None _ _ _ E). simpl. split.
    + rewrite first_match_app, E. simpl. rewrite matches_key. reflexivity.
    + intros k Hk. rewrite first_match_app.
      destruct (first_match k (docs c)); [reflexivity|]. simpl.
      destruct (matches k r) eqn:Em; [|reflexivity].
      exfalso. apply Hk. eapply matches_unique; [exact Em | apply matches_key].
Qed.

Lemma upsert_same (c : collection dict) (r : dict) :
  first_match (key r) (docs c) = Some r ->
  upsert c r = c /\ classify c r = Unchanged.
Proof.
  intros H. unfold upsert, replace_one, classify.
  rewrite (replace_first_same _ _ _ H), H.
  rewrite bool_decide_eq_true_2 by reflexivity.
  destruct c; split; reflexivity.
Qed.

Lemma stored_cons (c : collection dict) (r : dict) (rs : list dict) :
  stored c (r :: rs) = stored (upsert c r) rs.
Proof. reflexivity. Qed.

Lemma stored_app (c : collection dict) (rs rs' : list dict) :
  stored c (rs ++ rs') = stored (stored c rs) rs'.
Proof. apply fold_left_app. Qed.

Lemma outcomes_app (c : collection dict) (rs rs' : list dict) :
  outcomes c (rs ++ rs') = (outcomes c rs ++ outcomes (stored c rs) rs')%list.
Proof.
  revert c. induction rs as [|r rs IH]; intros c; simpl; [reflexivity|].
  rewrite IH. reflexivity.
Qed.

(** ** The page loop *)

Lemma only_upserts_refl (st : state) : only_upserts st st.
Proof. split; [reflexivity | exists []; reflexivity]. Qed.

Lemma only_upserts_same (st st' : state) :
  meta st' = meta st -> works st' = works st -> only_upserts st st'.
Proof. intros Hm Hw. split; [exact Hm | exists []; exact Hw]. Qed.

Lemma only_upserts_trans (st1 st2 st3 : state) :
  only_upserts st1 st2 -> only_upserts st2 st3 -> only_upserts st1 st3.
Proof.
  intros [Hm1 [rs1 Hw1]] [Hm2 [rs2 Hw2]]. split; [congruence|].
  exists (rs1 ++ rs2)%list. rewrite stored_app, <- Hw1. exact Hw2.
Qed.

Lemma is_record_updated_frame (w : world) (r : dict) (v : value) (st : state) :
  let st' := snd (is_record_updated w r v st) in
  works st' = works st /\ meta st' = meta st /\ ops st' = ops st.
Proof.
  unfold is_record_updated. destruct (negb (truthy v)); cbn; auto.
Qed.

Lemma updated_records_frame (w : world) (page : list dict) (W : string)
    (st : state) :
  let st' := snd (updated_records w page W st) in
  works st' = works st /\ meta st' = meta st /\ ops st' = ops st.
Proof.
  revert st. induction page as [|r page IH]; intros st; simpl; [auto|].
  rewrite bind_run.
  pose proof (is_record_updated_frame w r (VStr W) st) as Hr.
  destruct (is_record_updated w r (VStr W) st) as [[b|e] st1]; simpl in *;
    [|exact Hr].
  rewrite bind_run. specialize (IH st1).
  destruct (updated_records w page W st1) as [[rs|e] st2]; simpl in *;
    destruct Hr as (? & ? & ?), IH as (? & ? & ?); repeat split; congruence.
Qed.

(** With a non-empty watermark the clock is not read: the records kept are
    those the watermark makes stale. *)
Lemma updated_records_stale (w : world) (page rs : list dict) (W : string)
    (st st' : state) :
  W <> "" ->
  updated_records w page W st = (Ok rs, st') ->
  rs = filter (stale W) page /\ st' = st.
Proof.
  intros HW. assert (Ht : truthy (VStr W) = true).
  { simpl. destruct W; [congruence | reflexivity]. }
  revert rs st'. induction page as [|r page IH]; intros rs st'; simpl.
  - intros [= <- <-]. split; reflexivity.
  - rewrite bind_run, is_record_updated_truthy by exact Ht.
    destruct (later_than r (VStr W)) as [b|e] eqn:E; [|discriminate].
    rewrite bind_run.
    destruct (updated_records w page W st) as [[rs'|e] st1] eqn:E1;
      [|discriminate].
    destruct (IH _ _ eq_refl) as [-> ->].
    rewrite ret_run. intros [= <- <-]. split; [|reflexivity].
    rewrite filter_cons.
    destruct (decide (stale W r)) as [Hs|Hs]; unfold stale in Hs;
      rewrite E in Hs; destruct b; try reflexivity; [discriminate|].
    exfalso. apply Hs. reflexivity.
Qed.


Lemma works_replace_one_run (w : world) (r : dict) (k : value) (st : state) :
  r !! "id" = Some k ->
  works_replace_one w k r st
  = match db_fault w (ops st) with
    | Some e => (Raise e, sent st)
    | None => (Ok (response_of (classify (works st) r)),
               set_works (upsert (works st) r) (sent st))
    end.
Proof.
  intros Hk. assert (Hkey : key r = k) by (unfold key; rewrite Hk; reflexivity).
  unfold works_replace_one. destruct (db_fault w (ops st)) as [e|] eqn:E.
  - apply command_fault. exact E.
  - rewrite command_ok by exact E. cbn [works sent].
    unfold response_of. rewrite <- replace_one_response.
    unfold upsert. rewrite Hkey.
    destruct (replace_one (works st) k r). reflexivity.
Qed.

Lemma upsert_all_frame (w : world) (rs : list dict)
    (resp : list update_result) (st : state) :
  let st' := snd (upsert_all w rs resp st) in
  only_upserts st st' /\ ticks st' = ticks st.
Proof.
  revert resp st. induction rs as [|r rs IH]; intros resp st; simpl.
  - split; [apply only_upserts_refl | reflexivity].
  - rewrite bind_run, lift_run. unfold getitem.
    destruct (r !! "id") as [k|] eqn:Hk;
      [|split; [apply only_upserts_refl | reflexivity]].
    rewrite bind_run, (works_replace_one_run w r k st Hk).
    destruct (db_fault w (ops st)) as [e|].
    + simpl. split; [now apply only_upserts_same | reflexivity].
    + specialize (IH (resp ++ [response_of (classify (works st) r)])%list
                     (set_works (upsert (works st) r) (sent st))).
      destruct IH as [IH1 IH2]. split; [|exact IH2].
      eapply only_upserts_trans; [|exact IH1].
      split; [reflexivity|]. exists [r]. reflexivity.
Qed.

Lemma upsert_all_ok (w : world) (rs : list dict)
    (resp resp' : list update_result) (st st' : state) :
  upsert_all w rs resp st = (Ok resp', st') ->
  works st' = stored (works st) rs /\ meta st' = meta st
  /\ ticks st' = ticks st
  /\ resp' = (resp ++ map response_of (outcomes (works st) rs))%list.
Proof.
  revert resp st. induction rs as [|r rs IH]; intros resp st; simpl.
  - intros [= <- <-]. rewrite app_nil_r. auto.
  - rewrite bind_run, lift_run. unfold getitem.
    destruct (r !! "id") as [k|] eqn:Hk; [|discriminate].
    rewrite bind_run, (works_replace_one_run w r k st Hk).
    destruct (db_fault w (ops st)) as [e|]; [discriminate|].
    intros H. apply IH in H as (Hw & Hm & Ht & Hr).
    rewrite Hw, Hm, Ht, Hr, <- app_assoc. auto.
Qed.

(** A page loop that ends normally has upserted some records, one after
    the other, and returns one response for each; with a non-empty watermark
    they are the stale records of the pages and the clock was not read. *)
Lemma for_pages_ok (w : world) (pages : list fetch) (W : string)
    (resp resp' : list update_result) (st st' : state) :
  for_pages w pages W resp st = (Ok resp', st') ->
  exists rs,
    works st' = stored (works st) rs /\ meta st' = meta st
    /\ resp' = (resp ++ map response_of (outcomes (works st) rs))%list
    /\ (W <> "" -> rs = retained W pages /\ ticks st' = ticks st).
Proof.
  revert resp st. induction pages as [|[page|e] pages IH]; intros resp st; simpl.
  - intros [= <- <-]. exists []. rewrite app_nil_r. auto.
  - rewrite bind_run.
    pose proof (updated_records_frame w page W st) as Hf.
    destruct (updated_records w page W st) as [[rs1|e] st1] eqn:E1;
      [|discriminate].
    simpl in Hf. destruct Hf as (Hw1 & Hm1 & _).
    rewrite bind_run.
    destruct (upsert_all w rs1 resp st1) as [[resp1|e] st2] eqn:E2;
      [|discriminate].
    apply upsert_all_ok in E2 as (Hw2 & Hm2 & Ht2 & Hr2).
    intros H. apply IH in H as (rs2 & Hw3 & Hm3 & Hr3 & Hs3).
    exists (rs1 ++ rs2)%list. repeat split.
    + rewrite stored_app, Hw3, Hw2, Hw1. reflexivity.
    + congruence.
    + rewrite Hr3, Hr2, outcomes_app, map_app, Hw2, Hw1, <- app_assoc.
      reflexivity.
    + destruct (Hs3 H) as [-> _].
      destruct (updated_records_stale _ _ _ _ _ _ H E1) as [-> _].
      reflexivity.
    + destruct (Hs3 H) as [_ ->].
      destruct (updated_records_stale _ _ _ _ _ _ H E1) as [_ ->].
      exact Ht2.
  - discriminate.
Qed.

Lemma for_pages_frame (w : world) (pages : list fetch) (W : string)
    (resp : list update_result) (st : state) :
  only_upserts st (snd (for_pages w pages W resp st)).
Proof.
  revert resp st. induction pages as [|[page|e] pages IH]; intros resp st; simpl;
    try apply only_upserts_refl.
  rewrite bind_run.
  pose proof (updated_records_frame w page W st) as Hf.
  destruct (updated_records w page W st) as [[rs1|e] st1]; simpl in Hf;
    destruct Hf as (Hw1 & Hm1 & _).
  2:{ simpl. split; [exact Hm1 | exists []; exact Hw1]. }
  assert (H1 : only_upserts st st1) by (split; [exact Hm1 | exists []; exact Hw1]).
  rewrite bind_run.
  pose proof (upsert_all_frame w rs1 resp st1) as [H2 _].
  destruct (upsert_all w rs1 resp st1) as [[resp1|e] st2]; simpl in H2.
  - eapply only_upserts_trans; [|apply IH].
    eapply only_upserts_trans; eassumption.
  - simpl. eapply only_upserts_trans; eassumption.
Qed.

(** Once the loop has raised, the pages after the one it raised at play
    no part: whatever they are, the loop ends the same way. *)
Lemma for_pages_raise (w : world) (pages : list fetch) (W : string)
    (resp : list update_result) (st st' : state) (e : exn) :
  for_pages w pages W resp st = (Raise e, st') ->
  exists pre f post,
    pages = (pre ++ f :: post)%list
    /\ forall post', for_pages w (pre ++ f :: post') W resp st = (Raise e, st').
Proof.
  revert resp st. induction pages as [|[page|e'] pages IH]; intros resp st; simpl.
  - discriminate.
  - rewrite bind_run.
    destruct (updated_records w page W st) as [[rs1|e1] st1] eqn:E1.
    2:{ intros [= <- <-]. exists [], (Page page), pages.
        split; [reflexivity|]. intros post'. simpl.
        rewrite bind_run, E1. reflexivity. }
    rewrite bind_run.
    destruct (upsert_all w rs1 resp st1) as [[resp1|e2] st2] eqn:E2.
    2:{ intros [= <- <-]. exists [], (Page page), pages.
        split; [reflexivity|]. intros post'. simpl.
        rewrite bind_run, E1, bind_run, E2. reflexivity. }
    intros H. apply IH in H as (pre & f & post & -> & Hany).
    exists (Page page :: pre), f, post. split; [reflexivity|].
    intros post'. simpl. rewrite bind_run, E1, bind_run, E2. apply Hany.
  - intros [= <- <-]. exists [], (Broken e'), pages. split; [reflexivity|].
    intros post'. reflexivity.
Qed.

(** ** The counters *)

Lemma count_outcome_cons (o x : outcome) (l : list outcome) :
  count_outcome o (x :: l)
  = ((if decide (x = o) then 1 else 0) + count_outcome o l)%nat.
Proof.
  unfold count_outcome. rewrite filter_cons.
  destruct (decide (x = o)); reflexivity.
Qed.

(** [sum([not res.raw_result['updatedExisting'] ...])] counts the upserts
    that inserted. *)
Lemma sum_new (os : list outcome) :
  sum_list (map (fun res => Nat.b2n (negb (updatedExisting res)))
              (map response_of os))
  = count_outcome Inserted os.
Proof.
  induction os as [|o os IH]; [reflexivity|].
  rewrite count_outcome_cons. simpl. rewrite IH. destruct o; reflexivity.
Qed.

(** [sum([r.modified_count ...])] counts the upserts that changed a stored
    document. *)
Lemma sum_modified (os : list outcome) :
  sum_list (map modified_count (map response_of os))
  = count_outcome Changed os.
Proof.
  induction os as [|o os IH]; [reflexivity|].
  rewrite count_outcome_cons. simpl. rewrite IH. destruct o; reflexivity.
Qed.

(** Every upsert is of exactly one of the three kinds. *)
Lemma count_outcome_total (os : list outcome) :
  (count_outcome Inserted os + count_outcome Changed os
   + count_outcome Unchanged os = length os)%nat.
Proof.
  induction os as [|o os IH]; [reflexivity|].
  rewrite !count_outcome_cons. simpl. destruct o; simpl; lia.
Qed.

Lemma outcomes_length (c : collection dict) (rs : list dict) :
  length (outcomes c rs) = length rs.
Proof.
  revert c. induction rs as [|r rs IH]; intros c; simpl; [reflexivity|].
  rewrite IH. reflexivity.
Qed.

(** ** The body of [run] *)

Lemma datetime_now_run (w : world) (st : state) :
  datetime_now w st
  = (Ok (Datetime (clock w (ticks st)) None),
     State (works st) (meta st) (S (ticks st)) (ops st)).
Proof. reflexivity. Qed.

Lemma append_run (w : world) (entry : log_entry) (st : state) :
  append w entry st
  = match db_fault w (ops st) with
    | Some e => (Raise e, sent st)
    | None =>
        if encodable entry
        then (Ok tt, set_meta (insert_one (meta st) entry) (sent st))
        else (Raise (InvalidDocument "cannot encode object"), sent st)
    end.
Proof.
  unfold append. rewrite bind_run.
  destruct (db_fault w (ops st)) as [e|] eqn:E.
  - rewrite (command_fault _ _ _ _ E). reflexivity.
  - rewrite (command_ok _ _ _ E). cbn [fst snd].
    destruct (encodable entry); reflexivity.
Qed.

(** An append that returns has inserted its entry. *)
Lemma append_ok (w : world) (entry : log_entry) (st st' : state) :
  append w entry st = (Ok tt, st') ->
  st' = set_meta (insert_one (meta st) entry) (sent st).
Proof.
  rewrite append_run. destruct (db_fault w (ops st)); [discriminate|].
  destruct (encodable entry); [|discriminate]. intros [= <-]. reflexivity.
Qed.

(** An append that raises has left the run-log alone. *)
Lemma append_raise (w : world) (entry : log_entry) (st st' : state) (e : exn) :
  append w entry st = (Raise e, st') -> st' = sent st.
Proof.
  rewrite append_run. destruct (db_fault w (ops st)).
  - intros [= _ <-]. reflexivity.
  - destruct (encodable entry); [discriminate|]. intros [= _ <-]. reflexivity.
Qed.

Lemma read_watermark_frame (w : world) (st : state) :
  let st' := snd (read_watermark w st) in
  works st' = works st /\ meta st' = meta st /\ ticks st' = ticks st.
Proof.
  unfold read_watermark. rewrite bind_run.
  destruct (db_fault w (ops st)) eqn:E0.
  { rewrite (command_fault _ _ _ _ E0). simpl; auto. }
  rewrite (command_ok _ _ _ E0). cbn [fst snd sent meta].
  destruct (count_documents (meta st) =? 0)%nat; [simpl; auto|].
  rewrite bind_run. destruct (db_fault w (ops (sent st))) eqn:E1.
  { rewrite (command_fault _ _ _ _ E1). simpl; auto. }
  rewrite (command_ok _ _ _ E1). cbn [fst snd sent meta].
  destruct (find_latest (meta st)); simpl; auto.
Qed.

(** The [try] block up to the Success entry, when it gets that far. *)
Lemma success_entry_ok (w : world) (filter_params pagination sample : dict)
    (entry : log_entry) (st st1 : state) :
  success_entry w filter_params pagination sample st = (Ok entry, st1) ->
  exists q pager W rs t,
    get_query filter_params sample = Ok q
    /\ get_pager q pagination = Ok pager
    /\ fst (read_watermark w st) = Ok W
    /\ works st1 = stored (works st) rs
    /\ meta st1 = meta st
    /\ entry = Success (isoformat (Datetime (clock w t) None))
                 (count_documents (works st1))
                 (count_outcome Inserted (outcomes (works st) rs))
                 (count_outcome Changed (outcomes (works st) rs))
    /\ (W <> "" -> rs = retained W (source w pager) /\ t = ticks st).
Proof.
  unfold success_entry. rewrite bind_run, lift_run.
  destruct (get_query filter_params sample) as [q|e] eqn:Eq; [|discriminate].
  rewrite bind_run, lift_run.
  destruct (get_pager q pagination) as [pager|e] eqn:Ep; [|discriminate].
  rewrite bind_run.
  pose proof (read_watermark_frame w st) as Hf.
  destruct (read_watermark w st) as [[W|e] st0] eqn:Ew; [|discriminate].
  simpl in Hf. destruct Hf as (Hw0 & Hm0 & Ht0).
  rewrite bind_run.
  destruct (for_pages w (source w pager) W [] st0) as [[resp|e] st2] eqn:Ef;
    [|discriminate].
  apply for_pages_ok in Ef as (rs & Hw2 & Hm2 & Hr & Hs).
  rewrite bind_run, datetime_now_run, bind_run.
  unfold command. cbn [ops works meta ticks].
  destruct (db_fault w (ops st2)) as [e|]; [discriminate|].
  rewrite ret_run. intros [= <- <-].
  exists q, pager, W, rs, (ticks st2). cbn [works meta].
  rewrite Hr. cbn [app]. rewrite sum_new, sum_modified, Hw2, Hm2, Hw0, Hm0.
  do 6 (split; [first [reflexivity | assumption | rewrite Ew; reflexivity]|]).
  intros HW. destruct (Hs HW) as [-> ->]. split; [reflexivity | exact Ht0].
Qed.

(** Whatever way the [try] block ends before the append, it has left the
    run-log alone and has only upserted into the target collection. *)
Lemma success_entry_frame (w : world) (filter_params pagination sample : dict)
    (st : state) :
  only_upserts st (snd (success_entry w filter_params pagination sample st)).
Proof.
  unfold success_entry. rewrite bind_run, lift_run.
  destruct (get_query filter_params sample) as [q|e];
    [|apply only_upserts_refl].
  rewrite bind_run, lift_run.
  destruct (get_pager q pagination) as [pager|e]; [|apply only_upserts_refl].
  rewrite bind_run.
  pose proof (read_watermark_frame w st) as Hf.
  destruct (read_watermark w st) as [[W|e] st0]; simpl in Hf;
    destruct Hf as (Hw0 & Hm0 & _); [|now apply only_upserts_same].
  assert (H0 : only_upserts st st0) by now apply only_upserts_same.
  rewrite bind_run.
  pose proof (for_pages_frame w (source w pager) W [] st0) as H1.
  destruct (for_pages w (source w pager) W [] st0) as [[resp|e] st2];
    simpl in H1; [|eapply only_upserts_trans; eassumption].
  assert (H2 : only_upserts st st2) by (eapply only_upserts_trans; eassumption).
  rewrite bind_run, datetime_now_run, bind_run.
  unfold command. cbn [ops works meta ticks].
  destruct (db_fault w (ops st2)); simpl;
    (eapply only_upserts_trans; [exact H2|]); now apply only_upserts_same.
Qed.

Lemma sync_run (w : world) (filter_params pagination sample : dict)
    (st : state) :
  sync w filter_params pagination sample st
  = match success_entry w filter_params pagination sample st with
    | (Ok entry, st1) => append w entry st1
    | (Raise e, st1) => (Raise e, st1)
    end.
Proof. reflexivity. Qed.

Lemma handler_run (w : world) (e : exn) (st : state) :
  handler w true e st
  = append w (Failure (isoformat (Datetime (clock w (ticks st)) None)) e)
      (State (works st) (meta st) (S (ticks st)) (ops st)).
Proof. reflexivity. Qed.

Lemma run_connected (w : world) (filter_params pagination sample : dict)
    (db_name works_name meta_name : string) (st : state) :
  connect w db_name = None ->
  run w filter_params pagination sample db_name works_name meta_name st
  = match sync w filter_params pagination sample st with
    | (Ok a, st') => (Ok a, st')
    | (Raise e, st') => handler w true e st'
    end.
Proof.
  intros H. unfold run, get_connection. rewrite H. reflexivity.
Qed.

(** When [get_connection] raises, the [except] block finds [meta] unbound
    and raises in its turn; the store is left as it was. *)
Lemma run_connection_failure (w : world)
    (filter_params pagination sample : dict)
    (db_name works_name meta_name : string) (st : state) (e : exn) :
  connect w db_name = Some e ->
  run w filter_params pagination sample db_name works_name meta_name st
  = (Raise (UnboundLocalError "meta"), st).
Proof.
  intros H. unfold run, get_connection. rewrite H. reflexivity.
Qed.

(** The [except] block never gets its entry into the run-log. *)
Lemma handler_raises (w : world) (e : exn) (st : state) :
  handler w true e st
  = (Raise (unlogged w st),
     State (works st) (meta st) (S (ticks st)) (S (ops st))).
Proof.
  rewrite handler_run, append_run. unfold unlogged. cbn [ops encodable].
  destruct (db_fault w (ops st)); reflexivity.
Qed.

(** A [try] block that ends without an exception has appended the entry
    it computed. *)
Lemma sync_ok_entry (w : world) (filter_params pagination sample : dict)
    (st st' : state) :
  sync w filter_params pagination sample st = (Ok tt, st') ->
  exists entry st1,
    success_entry w filter_params pagination sample st = (Ok entry, st1)
    /\ meta st1 = meta st
    /\ st' = set_meta (insert_one (meta st1) entry) (sent st1).
Proof.
  rewrite sync_run.
  pose proof (success_entry_frame w filter_params pagination sample st)
    as [Hm _].
  destruct (success_entry w filter_params pagination sample st)
    as [[entry|e] st1]; [|discriminate].
  simpl in Hm. intros Hs. apply append_ok in Hs.
  exists entry, st1. auto.
Qed.

(** A [try] block that raises has not touched the run-log. *)
Lemma sync_raise_frame (w : world) (filter_params pagination sample : dict)
    (st st2 : state) (e : exn) :
  sync w filter_params pagination sample st = (Raise e, st2) ->
  meta st2 = meta st.
Proof.
  rewrite sync_run.
  pose proof (success_entry_frame w filter_params pagination sample st)
    as [Hm _].
  destruct (success_entry w filter_params pagination sample st)
    as [[entry|e1] st1]; simpl in Hm.
  - intros Hs. apply append_raise in Hs as ->. exact Hm.
  - intros [= _ <-]. exact Hm.
Qed.

(** The two ways a run that has its connection ends: it returns when its
    [try] block does, and raises out of the [except] block otherwise. *)
Lemma run_cases (w : world) (filter_params pagination sample : dict)
    (db_name works_name meta_name : string) (st : state) :
  connect w db_name = None ->
  run w filter_params pagination sample db_name works_name meta_name st
  = match sync w filter_params pagination sample st with
    | (Ok a, st') => (Ok a, st')
    | (Raise e, st2) =>
        (Raise (unlogged w st2),
         State (works st2) (meta st2) (S (ticks st2)) (S (ops st2)))
    end.
Proof.
  intros Hc. rewrite run_connected by exact Hc.
  destruct (sync w filter_params pagination sample st) as [[a|e] st2];
    [reflexivity | apply handler_raises].
Qed.

(** A run keeps the [_id]s of the run-log below the next one. *)
Lemma run_ids_fresh (w : world) (filter_params pagination sample : dict)
    (db_name works_name meta_name : string) (st : state) :
  ids_fresh (meta st) ->
  ids_fresh
    (meta (snd (run w filter_params pagination sample
                  db_name works_name meta_name st))).
Proof.
  intros Hfresh. destruct (connect w db_name) as [e|] eqn:Hc.
  { rewrite (run_connection_failure _ _ _ _ _ _ _ _ _ Hc). exact Hfresh. }
  rewrite run_cases by exact Hc.
  destruct (sync w filter_params pagination sample st) as [[[]|e] st2] eqn:Hs.
  - apply sync_ok_entry in Hs as (entry & st1 & _ & Hm & ->).
    cbn [snd meta set_meta]. rewrite Hm.
    apply ids_fresh_insert_one. exact Hfresh.
  - cbn [snd meta]. rewrite (sync_raise_frame _ _ _ _ _ _ _ Hs). exact Hfresh.
Qed.

(** ** Outcomes of a run *)

(** C3.  When the [try] block of a run ends without an exception, the run
    has appended one entry, a Success entry; its [db_count] is the number
    of documents of the target collection after the run, its [new] the
    number of upserts that inserted a document, its [modified] the number
    of upserts that changed the content of a stored one.  An upsert of an
    identical document counts for neither. *)
Theorem run_success_entry (w : world) (filter_params pagination sample : dict)
    (db_name works_name meta_name : string) (st st' : state) :
  connect w db_name = None ->
  sync w filter_params pagination sample st = (Ok tt, st') ->
  run w filter_params pagination sample db_name works_name meta_name st
  = (Ok tt, st')
  /\ exists (rs : list dict) (t : nat),
       works st' = stored (works st) rs
       /\ meta st'
          = insert_one (meta st)
              (Success (isoformat (Datetime (clock w t) None))
                 (count_documents (works st'))
                 (count_outcome Inserted (outcomes (works st) rs))
                 (count_outcome Changed (outcomes (works st) rs)))
       /\ (count_outcome Inserted (outcomes (works st) rs)
           + count_outcome Changed (outcomes (works st) rs)
           + count_outcome Unchanged (outcomes (works st) rs)
           = length rs)%nat
       /\ (forall q pager W,
             get_query filter_params sample = Ok q ->
             get_pager q pagination = Ok pager ->
             fst (read_watermark w st) = Ok W -> W <> "" ->
             rs = retained W (source w pager)).
Proof.
  intros Hc Hs. split.
  { rewrite run_connected by exact Hc. rewrite Hs. reflexivity. }
  rewrite sync_run in Hs.
  destruct (success_entry w filter_params pagination sample st)
    as [[entry|e] st1] eqn:E; [|discriminate].
  apply success_entry_ok in E
    as (q & pager & W & rs & t & Hq & Hp & HW & Hw & Hm & -> & Hr).
  apply append_ok in Hs as ->. cbn [works meta set_meta sent].
  exists rs, t. rewrite Hw, Hm. split; [reflexivity|]. split; [reflexivity|].
  split.
  - rewrite count_outcome_total. apply outcomes_length.
  - intros q' pager' W' Hq' Hp' HW' Hne.
    rewrite Hq in Hq'. injection Hq' as <-.
    rewrite Hp in Hp'. injection Hp' as <-.
    rewrite HW in HW'. injection HW' as <-. apply Hr. exact Hne.
Qed.

Lemma run_success_entry_witness :
  let w := quiet [Page [record_A]] in
  exists st',
    run w ∅ page_200 no_sample "db" "works" "meta" empty_store = (Ok tt, st')
    /\ docs (meta st') = [(0%nat, Success "2024-03-01T12:00:00" 1 1 0)].
Proof.
  intros w.
  pose (st' := snd (sync w ∅ page_200 no_sample empty_store)).
  assert (Hs : sync w ∅ page_200 no_sample empty_store = (Ok tt, st'))
    by (vm_compute; reflexivity).
  destruct (run_success_entry w ∅ page_200 no_sample "db" "works" "meta"
              empty_store st' eq_refl Hs) as [Hrun _].
  exists st'. split; [exact Hrun | vm_compute; reflexivity].
Defined.

(** The [try] block of a run whose page loop raises. *)
Lemma sync_page_loop_raise (w : world) (filter_params pagination sample : dict)
    (q : query) (pager : pager) (W : string) (st st1 st2 : state) (e : exn) :
  get_query filter_params sample = Ok q ->
  get_pager q pagination = Ok pager ->
  read_watermark w st = (Ok W, st1) ->
  for_pages w (source w pager) W [] st1 = (Raise e, st2) ->
  sync w filter_params pagination sample st = (Raise e, st2).
Proof.
  intros Hq Hp HW Hf. rewrite sync_run. unfold success_entry.
  rewrite bind_run, lift_run, Hq, bind_run, lift_run, Hp, bind_run, HW,
    bind_run, Hf. reflexivity.
Qed.

(** C4 (what the code does).  When the page loop of a run raises, the
    pages after the one it raised at are not processed and the target
    collection stays as the upserts made before the exception left it.
    But the [except] block cannot get its Failure entry into the run-log,
    since the entry holds the exception object: the run raises in its
    turn, and the run-log has no entry for it, neither Failure nor
    Success. *)
Theorem run_page_loop_failure (w : world)
    (filter_params pagination sample : dict)
    (db_name works_name meta_name : string)
    (q : query) (pager : pager) (W : string) (st st1 st2 : state) (e : exn) :
  connect w db_name = None ->
  get_query filter_params sample = Ok q ->
  get_pager q pagination = Ok pager ->
  read_watermark w st = (Ok W, st1) ->
  for_pages w (source w pager) W [] st1 = (Raise e, st2) ->
  exists st3,
    run w filter_params pagination sample db_name works_name meta_name st
    = (Raise (unlogged w st2), st3)
    /\ meta st3 = meta st
    /\ works st3 = works st2
    /\ (exists rs, works st2 = stored (works st) rs)
    /\ exists pre f post,
         source w pager = (pre ++ f :: post)%list
         /\ forall post',
              for_pages w (pre ++ f :: post') W [] st1 = (Raise e, st2).
Proof.
  intros Hc Hq Hp HW Hf.
  pose proof (read_watermark_frame w st) as Hfr. rewrite HW in Hfr.
  simpl in Hfr. destruct Hfr as (Hw1 & Hm1 & _).
  pose proof (for_pages_frame w (source w pager) W [] st1) as [Hm2 [rs Hw2]].
  rewrite Hf in Hm2, Hw2. simpl in Hm2, Hw2.
  eexists. split.
  { rewrite run_cases by exact Hc.
    rewrite (sync_page_loop_raise _ _ _ _ _ _ _ _ _ _ _ Hq Hp HW Hf).
    reflexivity. }
  cbn [works meta]. split; [congruence|]. split; [reflexivity|]. split.
  - exists rs. rewrite Hw2, Hw1. reflexivity.
  - apply (for_pages_raise _ _ _ _ _ _ _ Hf).
Qed.

Lemma run_page_loop_failure_witness :
  let w := quiet broken_source in
  exists st3,
    run w ∅ page_200 no_sample "db" "works" "meta" empty_store
    = (Raise (InvalidDocument "cannot encode object"), st3)
    /\ meta st3 = meta empty_store
    /\ length (docs (works st3)) = 1%nat.
Proof.
  intros w.
  pose (pager := Pager (Query ∅ None) "page" (VInt 200)).
  pose (st1 := snd (read_watermark w empty_store)).
  pose (st2 := snd (for_pages w (source w pager) DEFAULT_DATE [] st1)).
  destruct (run_page_loop_failure w ∅ page_200 no_sample "db" "works" "meta"
              (Query ∅ None) pager DEFAULT_DATE empty_store st1 st2
              (ExternalError "timeout"))
    as (st3 & Hrun & Hmeta & Hworks & _);
    try (vm_compute; reflexivity).
  exists st3. split; [exact Hrun|]. split; [exact Hmeta|].
  rewrite Hworks. vm_compute. reflexivity.
Defined.








(** ** Running twice *)

Lemma stored_keeps_first_match (k : value) (r : dict) (rs : list dict)
    (c : collection dict) :
  first_match k (docs c) = Some r ->
  (forall r', In r' rs -> key r' = k -> r' = r) ->
  first_match k (docs (stored c rs)) = Some r.
Proof.
  revert c. induction rs as [|r0 rs IH]; intros c Hc Hsame; [exact Hc|].
  rewrite stored_cons. apply IH.
  - destruct (decide (key r0 = k)) as [Hk|Hk].
    + assert (r0 = r) as -> by (apply Hsame; [left; reflexivity | exact Hk]).
      destruct (upsert_same c r) as [-> _]; [rewrite Hk; exact Hc | exact Hc].
    + destruct (first_match_upsert c r0) as [_ Hother].
      rewrite Hother by congruence. exact Hc.
  - intros r' Hin. apply Hsame. right. exact Hin.
Qed.

(** When records that share an [id] are the same record, each one is,
    after the upserts, the first document its filter matches. *)
Lemma stored_first_match (rs : list dict) (c : collection dict) :
  (forall r r', In r rs -> In r' rs -> key r = key r' -> r = r') ->
  forall r, In r rs -> first_match (key r) (docs (stored c rs)) = Some r.
Proof.
  revert c. induction rs as [|r0 rs IH]; intros c Hsame r Hin; [destruct Hin|].
  rewrite stored_cons. destruct Hin as [<-|Hin].
  - apply stored_keeps_first_match.
    + apply first_match_upsert.
    + intros r' Hin' Hk. symmetry. apply Hsame; [left | right |]; auto.
  - apply IH; [|exact Hin].
    intros r1 r2 H1 H2. apply Hsame; right; assumption.
Qed.

(** Upserting records that are already the first match of their filters
    changes nothing. *)
Lemma replay_unchanged (c : collection dict) (rs : list dict) :
  (forall r, In r rs -> first_match (key r) (docs c) = Some r) ->
  stored c rs = c /\ outcomes c rs = repeat Unchanged (length rs).
Proof.
  induction rs as [|r rs IH]; intros H; [split; reflexivity|].
  destruct (upsert_same c r (H r (or_introl eq_refl))) as [Hu Hc].
  destruct IH as [IH1 IH2]; [intros r' Hin; apply H; right; exact Hin|].
  rewrite stored_cons. simpl. rewrite Hu, Hc, IH1, IH2. split; reflexivity.
Qed.

Lemma count_outcome_repeat (o : outcome) (n : nat) :
  o <> Unchanged -> count_outcome o (repeat Unchanged n) = 0%nat.
Proof.
  intros H. induction n as [|n IH]; [reflexivity|].
  simpl. rewrite count_outcome_cons, IH.
  destruct (decide (Unchanged = o)); [congruence | reflexivity].
Qed.

(** C8 (amended).  Take two runs of the same source, each ending without
    an exception, the second on the target collection the first left, both
    reading the same non-empty watermark.  If no two of the stale records
    share an [id] while differing in content, the Success entry of the
    second run has [new = 0] and [modified = 0], and the second run leaves
    the target collection as it found it. *)
Theorem second_run_idempotent (w : world)
    (filter_params pagination sample : dict)
    (db_name works_name meta_name : string)
    (q : query) (pager : pager) (W : string) (st1 st1' st2 st2' : state) :
  connect w db_name = None ->
  get_query filter_params sample = Ok q ->
  get_pager q pagination = Ok pager ->
  fst (read_watermark w st1) = Ok W ->
  fst (read_watermark w st2) = Ok W ->
  W <> "" ->
  (forall r r',
     In r (retained W (source w pager)) ->
     In r' (retained W (source w pager)) ->
     key r = key r' -> r = r') ->
  sync w filter_params pagination sample st1 = (Ok tt, st1') ->
  works st2 = works st1' ->
  sync w filter_params pagination sample st2 = (Ok tt, st2') ->
  run w filter_params pagination sample db_name works_name meta_name st2
  = (Ok tt, st2')
  /\ works st2' = works st2
  /\ exists d n, meta st2' = insert_one (meta st2) (Success d n 0 0).
Proof.
  intros Hc Hq Hp HW1 HW2 HW Hsame Hs1 Hw Hs2. split.
  { rewrite run_connected by exact Hc. rewrite Hs2. reflexivity. }
  rewrite sync_run in Hs1, Hs2.
  destruct (success_entry w filter_params pagination sample st1)
    as [[entry1|e] s1] eqn:E1; [|discriminate].
  destruct (success_entry w filter_params pagination sample st2)
    as [[entry2|e] s2] eqn:E2; [|discriminate].
  apply success_entry_ok in E1
    as (q1 & p1 & W1 & rs1 & t1 & Hq1 & Hp1 & HWa & Hst1 & _ & _ & Hr1).
  apply success_entry_ok in E2
    as (q2 & p2 & W2 & rs2 & t2 & Hq2 & Hp2 & HWb & Hst2 & Hm2 & -> & Hr2).
  rewrite Hq in Hq1, Hq2. injection Hq1 as <-. injection Hq2 as <-.
  rewrite Hp in Hp1, Hp2. injection Hp1 as <-. injection Hp2 as <-.
  rewrite HW1 in HWa. injection HWa as <-.
  rewrite HW2 in HWb. injection HWb as <-.
  destruct (Hr1 HW) as [-> _]. destruct (Hr2 HW) as [-> _].
  apply append_ok in Hs1 as ->. apply append_ok in Hs2 as ->.
  cbn [works meta set_meta sent] in *.
  set (rs := retained W (source w pager)) in *.
  assert (Hfirst : forall r, In r rs ->
            first_match (key r) (docs (works st2)) = Some r).
  { intros r Hin. rewrite Hw, Hst1. apply stored_first_match; assumption. }
  destruct (replay_unchanged (works st2) rs Hfirst) as [Hsto Hout].
  split; [rewrite Hst2; exact Hsto|].
  rewrite Hm2, Hout, !count_outcome_repeat by discriminate.
  eexists _, _. reflexivity.
Qed.

Lemma retained_record_A :
  retained DEFAULT_DATE [Page [record_A]] = [record_A].
Proof. vm_compute. reflexivity. Qed.

Lemma second_run_idempotent_witness :
  let w := quiet [Page [record_A]] in
  let st1' := snd (sync w ∅ page_200 no_sample empty_store) in
  let st2 := rerun_from empty_store st1' in
  let st2' := snd (sync w ∅ page_200 no_sample st2) in
  run w ∅ page_200 no_sample "db" "works" "meta" st2 = (Ok tt, st2')
  /\ works st2' = works st2
  /\ exists d n, meta st2' = insert_one (meta st2) (Success d n 0 0).
Proof.
  intros w st1' st2 st2'.
  apply (second_run_idempotent w ∅ page_200 no_sample "db" "works" "meta"
           (Query ∅ None) (Pager (Query ∅ None) "page" (VInt 200))
           DEFAULT_DATE empty_store st1' st2);
    try (vm_compute; reflexivity).
  - discriminate.
  - change (source w (Pager (Query ∅ None) "page" (VInt 200)))
      with [Page [record_A]].
    rewrite retained_record_A.
    intros r r' [<-|[]] [<-|[]] _. reflexivity.
Defined.

(** C8 as stated fails: the source yields two versions of the work [A];
    the first run stores the second version, and the second run, reading
    the same watermark from the same source, replaces it by the first
    version and then by the second again: [modified = 2]. *)
Lemma second_run_counterexample :
  let w := quiet [Page [record_A; record_A']] in
  let r1 := run w ∅ page_200 no_sample "db" "works" "meta" empty_store in
  let st2 := rerun_from empty_store (snd r1) in
  let r2 := run w ∅ page_200 no_sample "db" "works" "meta" st2 in
  fst r1 = Ok tt /\ fst r2 = Ok tt
  /\ fst (read_watermark w empty_store) = Ok DEFAULT_DATE
  /\ fst (read_watermark w st2) = Ok DEFAULT_DATE
  /\ docs (meta (snd r1)) = [(0%nat, Success "2024-03-01T12:00:00" 1 1 1)]
  /\ docs (meta (snd r2)) = [(0%nat, Success "2024-03-02T12:00:00" 1 0 2)].
Proof. repeat split; vm_compute; reflexivity. Qed.

(** * Further properties of the program *)

(** ** [is_record_updated] *)

(** X1.  A record whose update date is strictly later than the watermark
    is reported as updated without its creation date being looked at: the
    creation date may be missing or malformed. *)
Theorem is_record_updated_short_circuit (w : world) (record : dict)
    (st : state) (U W : string) (du dw : datetime) :
  record !! "updated_date" = Some (VStr U) ->
  parse U = Some du -> parse W = Some dw ->
  aware du = aware dw ->
  instant dw < instant du ->
  is_record_updated w record (VStr W) st = (Ok true, st).
Proof.
  intros HU Hu Hw Ha Hlt.
  rewrite is_record_updated_truthy by (eapply parse_truthy; eassumption).
  unfold later_than, getitem, fromisoformat.
  rewrite HU. cbn [mbind result_bind]. rewrite Hu, Hw. cbn [mbind result_bind].
  rewrite gt_instant by (try eapply parse_valid; eassumption).
  cbn [mbind result_bind].
  apply Z.ltb_lt in Hlt. rewrite Hlt. reflexivity.
Qed.

Lemma is_record_updated_short_circuit_witness :
  is_record_updated (quiet []) record_no_created (VStr DEFAULT_DATE) empty_store
  = (Ok true, empty_store)
  /\ record_no_created !! "created_date" = None.
Proof.
  split; [|reflexivity].
  apply (is_record_updated_short_circuit (quiet []) record_no_created
           empty_store "2024-01-02T00:00:00.000000" DEFAULT_DATE
           (Datetime (Civil 2024 1 2 0 0 0 0) None)
           (Datetime (Civil 2010 1 1 0 0 0 0) None));
    reflexivity.
Defined.

(** X2.  A record without [updated_date] raises [KeyError] for that key
    whatever the watermark is, even one that does not parse.  A record
    whose update date is not later than the watermark and that has no
    [created_date] raises [KeyError] for that key. *)
Theorem is_record_updated_missing_dates (w : world) (record : dict)
    (st : state) :
  (forall v : value,
     record !! "updated_date" = None ->
     fst (is_record_updated w record v st) = Raise (KeyError "updated_date"))
  /\ (forall (U W : string) (du dw : datetime),
        record !! "updated_date" = Some (VStr U) ->
        record !! "created_date" = None ->
        parse U = Some du -> parse W = Some dw ->
        aware du = aware dw ->
        instant du <= instant dw ->
        is_record_updated w record (VStr W) st
        = (Raise (KeyError "created_date"), st)).
Proof.
  split.
  - intros v HU. unfold is_record_updated.
    destruct (negb (truthy v)); rewrite bind_run.
    + rewrite bind_run, datetime_now_run, ret_run, lift_run.
      unfold later_than, getitem. rewrite HU. reflexivity.
    + rewrite ret_run, lift_run.
      unfold later_than, getitem. rewrite HU. reflexivity.
  - intros U W du dw HU HC Hu Hw Ha Hle.
    rewrite is_record_updated_truthy by (eapply parse_truthy; eassumption).
    unfold later_than, getitem, fromisoformat.
    rewrite HU. cbn [mbind result_bind]. rewrite Hu, Hw.
    cbn [mbind result_bind].
    rewrite gt_instant by (try eapply parse_valid; eassumption).
    cbn [mbind result_bind].
    apply Z.ltb_ge in Hle. rewrite Hle, HC. reflexivity.
Qed.

Lemma is_record_updated_missing_dates_witness :
  fst (is_record_updated (quiet []) ∅ (VStr "no date") empty_store)
  = Raise (KeyError "updated_date")
  /\ is_record_updated (quiet [])
       (<["updated_date" := VStr "2009-06-01T00:00:00"]> ∅)
       (VStr DEFAULT_DATE) empty_store
     = (Raise (KeyError "created_date"), empty_store).
Proof.
  split.
  - apply (proj1 (is_record_updated_missing_dates (quiet []) ∅ empty_store)).
    reflexivity.
  - apply (proj2 (is_record_updated_missing_dates (quiet [])
                    (<["updated_date" := VStr "2009-06-01T00:00:00"]> ∅)
                    empty_store)
             "2009-06-01T00:00:00" DEFAULT_DATE
             (Datetime (Civil 2009 6 1 0 0 0 0) None)
             (Datetime (Civil 2010 1 1 0 0 0 0) None));
      try reflexivity.
    vm_compute. discriminate.
Defined.

(** ** [get_query] *)

(** X3.  [get_query] keeps the filter parameters as they are and samples
    exactly when [sample["enabled"]] is truthy.  With sampling off, [size]
    and [seed] are not read, so they may be missing; with sampling on, the
    query carries the configured [size] and [seed]. *)
Theorem get_query_sampling (filter_params sample : dict) :
  (forall v, sample !! "enabled" = Some v -> truthy v = false ->
     get_query filter_params sample = Ok (Query filter_params None))
  /\ (forall q, get_query filter_params sample = Ok q ->
        q_filter q = filter_params
        /\ exists v, sample !! "enabled" = Some v
           /\ match q_sample q with
              | None => truthy v = false
              | Some (size, seed) =>
                  truthy v = true
                  /\ sample !! "size" = Some size
                  /\ sample !! "seed" = Some seed
              end).
Proof.
  split.
  - intros v Hv Hf. unfold get_query, getitem. rewrite Hv.
    cbn [mbind result_bind]. rewrite Hf. reflexivity.
  - intros q. unfold get_query, getitem.
    destruct (sample !! "enabled") as [v|]; [|discriminate].
    cbn [mbind result_bind]. destruct (truthy v) eqn:Hv.
    + destruct (sample !! "size") as [size|]; [|discriminate].
      cbn [mbind result_bind].
      destruct (sample !! "seed") as [seed|]; [|discriminate].
      cbn [mbind result_bind]. intros [= <-]. split; [reflexivity|].
      exists v. cbn. auto.
    + intros [= <-]. split; [reflexivity|]. exists v. cbn. auto.
Qed.

Lemma get_query_sampling_witness :
  get_query (<["type" := VStr "article"]> ∅) no_sample
  = Ok (Query (<["type" := VStr "article"]> ∅) None)
  /\ no_sample !! "size" = None.
Proof.
  split; [|reflexivity].
  apply (proj1 (get_query_sampling (<["type" := VStr "article"]> ∅) no_sample)
           (VBool false)); reflexivity.
Defined.

(** ** Runs that do not reach the page loop *)

(** X4.  A configuration the query or the pager cannot be built from (no
    [enabled] entry in the sample, no [page_size] in the pagination) makes
    the run raise: the [KeyError] is caught, but the Failure entry that
    would carry it cannot be encoded.  Nothing is logged, the run-log has
    not been read, the target collection is untouched, and the failed
    append is the only database command of the run. *)
Theorem run_configuration_error (w : world)
    (filter_params pagination sample : dict)
    (db_name works_name meta_name : string) (st : state) :
  connect w db_name = None ->
  db_fault w (ops st) = None ->
  let unlogged_run :=
    run w filter_params pagination sample db_name works_name meta_name st
    = (Raise (InvalidDocument "cannot encode object"),
       State (works st) (meta st) (S (ticks st)) (S (ops st))) in
  (sample !! "enabled" = None -> unlogged_run)
  /\ (forall q, get_query filter_params sample = Ok q ->
        pagination !! "page_size" = None -> unlogged_run).
Proof.
  intros Hc Hdb unlogged_run. subst unlogged_run.
  assert (Hraise : forall e,
            sync w filter_params pagination sample st = (Raise e, st) ->
            run w filter_params pagination sample db_name works_name meta_name st
            = (Raise (InvalidDocument "cannot encode object"),
               State (works st) (meta st) (S (ticks st)) (S (ops st)))).
  { intros e Hs. rewrite run_cases by exact Hc. rewrite Hs.
    unfold unlogged. rewrite Hdb. reflexivity. }
  split.
  - intros He. apply (Hraise (KeyError "enabled")).
    rewrite sync_run. unfold success_entry.
    rewrite bind_run, lift_run. unfold get_query, getitem. rewrite He.
    reflexivity.
  - intros q Hq Hp. apply (Hraise (KeyError "page_size")).
    rewrite sync_run. unfold success_entry.
    rewrite bind_run, lift_run, Hq, bind_run, lift_run.
    unfold get_pager, getitem. rewrite Hp. reflexivity.
Qed.

Lemma run_configuration_error_witness :
  let w := quiet [Page [record_A]] in
  run w ∅ page_200 ∅ "db" "works" "meta" empty_store
  = (Raise (InvalidDocument "cannot encode object"),
     State (Collection [] 0) (Collection [] 0) 1 1)
  /\ run w ∅ ∅ no_sample "db" "works" "meta" empty_store
     = (Raise (InvalidDocument "cannot encode object"),
        State (Collection [] 0) (Collection [] 0) 1 1).
Proof.
  intros w. split.
  - apply (proj1 (run_configuration_error w ∅ page_200 ∅ "db" "works" "meta"
                    empty_store eq_refl eq_refl)).
    reflexivity.
  - apply (proj2 (run_configuration_error w ∅ ∅ no_sample "db" "works" "meta"
                    empty_store eq_refl eq_refl) (Query ∅ None));
      reflexivity.
Defined.

(** X5.  When [get_connection] raises, the [except] block cannot reach
    [meta]: the run ends with [UnboundLocalError] in place of the
    exception of the connection, and nothing is logged, upserted or read
    from the clock. *)
Theorem run_connection_error_lost (w : world)
    (filter_params pagination sample : dict)
    (db_name works_name meta_name : string) (st : state) (e : exn) :
  connect w db_name = Some e ->
  run w filter_params pagination sample db_name works_name meta_name st
  = (Raise (UnboundLocalError "meta"), st).
Proof.
  intros H. unfold run. unfold get_connection. rewrite H.
  unfold handler, raise. reflexivity.
Qed.

Lemma run_connection_error_lost_witness :
  run offline ∅ page_200 no_sample "db" "works" "meta" store_after_success
  = (Raise (UnboundLocalError "meta"), store_after_success).
Proof.
  apply (run_connection_error_lost offline ∅ page_200 no_sample
           "db" "works" "meta" store_after_success
           (ExternalError "InvalidURI")).
  reflexivity.
Defined.

(** ** From one run to the next *)

Lemma pad_nonempty (n : nat) (z : Z) (tail : string) :
  tail <> "" -> pad n z tail <> "".
Proof.
  revert z tail. induction n as [|n IH]; intros z tail H; [exact H|].
  simpl. apply IH. discriminate.
Qed.

(** [isoformat] never prints the empty string. *)
Lemma isoformat_nonempty (d : datetime) : isoformat d <> "".
Proof.
  unfold isoformat. change (pad 4 ?z ?t) with (pad 3 (z / 10) (String (digit_char z) t)).
  apply pad_nonempty. discriminate.
Qed.

(** X6.  After a run whose [try] block ended without an exception, the
    watermark the next invocation reads is the [run_date] of the Success
    entry that run appended, the printed reading of the clock; it is not
    empty, so the filter of the next run does not read the clock; and the
    [_id]s of the run-log are again below the next one. *)
Theorem watermark_after_success (w : world)
    (filter_params pagination sample : dict) (st st' : state) :
  sync w filter_params pagination sample st = (Ok tt, st') ->
  ids_fresh (meta st) ->
  db_fault w (ops st') = None -> db_fault w (S (ops st')) = None ->
  exists t d n m,
    meta st'
    = insert_one (meta st) (Success (isoformat (Datetime (clock w t) None)) d n m)
    /\ fst (read_watermark w st') = Ok (isoformat (Datetime (clock w t) None))
    /\ isoformat (Datetime (clock w t) None) <> ""
    /\ ids_fresh (meta st').
Proof.
  intros Hs Hfresh H0 H1. rewrite sync_run in Hs.
  destruct (success_entry w filter_params pagination sample st)
    as [[entry|e] st1] eqn:E; [|discriminate].
  apply success_entry_ok in E
    as (q & pager & W & rs & t & _ & _ & _ & _ & Hm & -> & _).
  apply append_ok in Hs as ->.
  cbn [ops sent set_meta works meta ticks] in *. rewrite Hm.
  eexists t, _, _, _. split; [reflexivity|]. split.
  - match goal with
    | |- fst (read_watermark w ?s) = _ =>
        rewrite (read_watermark_insert_one w s (meta st) _ H0 H1 Hfresh eq_refl)
    end.
    reflexivity.
  - split; [apply isoformat_nonempty | apply ids_fresh_insert_one; exact Hfresh].
Qed.

Lemma watermark_after_success_witness :
  let w := quiet [Page [record_A]] in
  let st' := snd (sync w ∅ page_200 no_sample store_after_success) in
  exists t d n m,
    meta st'
    = insert_one (meta store_after_success)
        (Success (isoformat (Datetime (clock w t) None)) d n m)
    /\ fst (read_watermark w st') = Ok (isoformat (Datetime (clock w t) None))
    /\ isoformat (Datetime (clock w t) None) <> ""
    /\ ids_fresh (meta st').
Proof.
  intros w st'.
  apply (watermark_after_success w ∅ page_200 no_sample store_after_success st');
    try (vm_compute; reflexivity).
  repeat constructor.
Defined.

(** ** What a run does to the target collection *)

Lemma upsert_count (c : collection dict) (r : dict) :
  count_documents (upsert c r)
  = (count_documents c + count_outcome Inserted [classify c r])%nat.
Proof.
  unfold upsert, replace_one, classify, count_documents.
  destruct (first_match (key r) (docs c)) as [d|] eqn:E.
  - destruct (replace_first_Some _ r _ _ E) as (l' & -> & Hlen & _).
    cbn [fst docs]. rewrite Hlen, count_outcome_cons.
    destruct (bool_decide (d = r));
      (destruct (decide _) as [[=]|_]); unfold count_outcome; cbn; lia.
  - rewrite (replace_first_None _ _ _ E). cbn [fst docs insert_one].
    rewrite length_app, count_outcome_cons.
    destruct (decide _) as [_|Hne]; [|congruence].
    unfold count_outcome. cbn. lia.
Qed.

(** The collection grows by one document for each upsert that inserts. *)
Lemma stored_count (c : collection dict) (rs : list dict) :
  count_documents (stored c rs)
  = (count_documents c + count_outcome Inserted (outcomes c rs))%nat.
Proof.
  revert c. induction rs as [|r rs IH]; intros c.
  - unfold count_outcome. cbn. lia.
  - rewrite stored_cons, IH, upsert_count. cbn [outcomes].
    rewrite !count_outcome_cons.
    replace (count_outcome Inserted []) with 0%nat by reflexivity. lia.
Qed.

(** Upserts leave the first match of a filter none of them uses. *)
Lemma stored_other (k : value) (c : collection dict) (rs : list dict) :
  (forall r, In r rs -> key r <> k) ->
  first_match k (docs (stored c rs)) = first_match k (docs c).
Proof.
  revert c. induction rs as [|r rs IH]; intros c H; [reflexivity|].
  rewrite stored_cons, IH by (intros r' Hin; apply H; right; exact Hin).
  destruct (first_match_upsert c r) as [_ Hother]. apply Hother.
  intros E. apply (H r (or_introl eq_refl)). symmetry. exact E.
Qed.

(** A filter that matched a document before the upserts still matches one. *)
Lemma stored_present (k : value) (c : collection dict) (rs : list dict) :
  first_match k (docs c) <> None -> first_match k (docs (stored c rs)) <> None.
Proof.
  revert c. induction rs as [|r rs IH]; intros c H; [exact H|].
  rewrite stored_cons. apply IH.
  destruct (first_match_upsert c r) as [Hsame Hother].
  destruct (decide (k = key r)) as [->|Hne].
  - rewrite Hsame. discriminate.
  - rewrite Hother by exact Hne. exact H.
Qed.

(** With a non-empty watermark, a [try] block that ends without an
    exception has upserted the stale records of the source, in order. *)
Lemma sync_ok_stored (w : world) (filter_params pagination sample : dict)
    (q : query) (pager : pager) (W : string) (st st' : state) :
  get_query filter_params sample = Ok q ->
  get_pager q pagination = Ok pager ->
  fst (read_watermark w st) = Ok W -> W <> "" ->
  sync w filter_params pagination sample st = (Ok tt, st') ->
  works st' = stored (works st) (retained W (source w pager))
  /\ exists d,
       meta st'
       = insert_one (meta st)
           (Success d (count_documents (works st'))
              (count_outcome Inserted
                 (outcomes (works st) (retained W (source w pager))))
              (count_outcome Changed
                 (outcomes (works st) (retained W (source w pager))))).
Proof.
  intros Hq Hp HW Hne Hs. rewrite sync_run in Hs.
  destruct (success_entry w filter_params pagination sample st)
    as [[entry|e] st1] eqn:E; [|discriminate].
  apply success_entry_ok in E
    as (q' & pager' & W' & rs & t & Hq' & Hp' & HW' & Hw & Hm & -> & Hr).
  rewrite Hq in Hq'. injection Hq' as <-.
  rewrite Hp in Hp'. injection Hp' as <-.
  rewrite HW in HW'. injection HW' as <-.
  destruct (Hr Hne) as [-> _].
  apply append_ok in Hs as ->.
  cbn [works meta set_meta sent]. rewrite Hm.
  split; [exact Hw | eexists; reflexivity].
Qed.

(** Whatever way a run ends, it has only upserted into the target
    collection. *)
Lemma run_works_stored (w : world) (filter_params pagination sample : dict)
    (db_name works_name meta_name : string) (st : state) :
  exists rs,
    works (snd (run w filter_params pagination sample
                  db_name works_name meta_name st))
    = stored (works st) rs.
Proof.
  destruct (connect w db_name) as [e|] eqn:Hc.
  { rewrite (run_connection_failure _ _ _ _ _ _ _ _ _ Hc). exists []. reflexivity. }
  rewrite run_cases by exact Hc. rewrite sync_run.
  pose proof (success_entry_frame w filter_params pagination sample st)
    as [_ [rs Hw]].
  exists rs.
  destruct (success_entry w filter_params pagination sample st)
    as [[entry|e] st1]; simpl in Hw; [|exact Hw].
  destruct (append w entry st1) as [[[]|e] st2] eqn:Ha.
  - apply append_ok in Ha as ->. exact Hw.
  - apply append_raise in Ha as ->. exact Hw.
Qed.

(** X7.  In the Success entry of a run, [db_count] is the number of
    documents the target collection held before the run plus [new]: the
    collection grows by exactly the upserts that inserted. *)
Theorem run_db_count (w : world) (filter_params pagination sample : dict)
    (st st' : state) :
  sync w filter_params pagination sample st = (Ok tt, st') ->
  exists d new modified,
    meta st'
    = insert_one (meta st)
        (Success d (count_documents (works st) + new)%nat new modified)
    /\ count_documents (works st')
       = (count_documents (works st) + new)%nat.
Proof.
  intros Hs. rewrite sync_run in Hs.
  destruct (success_entry w filter_params pagination sample st)
    as [[entry|e] st1] eqn:E; [|discriminate].
  apply success_entry_ok in E
    as (q & pager & W & rs & t & _ & _ & _ & Hw & Hm & -> & _).
  apply append_ok in Hs as ->.
  cbn [works meta set_meta sent]. rewrite Hm, Hw, stored_count.
  eexists _, _, _. split; reflexivity.
Qed.

Lemma run_db_count_witness :
  let w := quiet [Page [record_A; record_A']] in
  let st' := snd (sync w ∅ page_200 no_sample empty_store) in
  exists d new modified,
    meta st'
    = insert_one (meta empty_store)
        (Success d (count_documents (works empty_store) + new)%nat new modified)
    /\ count_documents (works st')
       = (count_documents (works empty_store) + new)%nat.
Proof.
  intros w st'.
  apply (run_db_count w ∅ page_200 no_sample empty_store st').
  vm_compute. reflexivity.
Defined.

(** X9.  No run removes a document from the target collection, however it
    ends: the collection never gets smaller, and an [id] that had a
    document before the run has one after it. *)
Theorem run_never_deletes (w : world) (filter_params pagination sample : dict)
    (db_name works_name meta_name : string) (st : state) :
  let st' :=
    snd (run w filter_params pagination sample db_name works_name meta_name st) in
  (count_documents (works st) <= count_documents (works st'))%nat
  /\ forall k, first_match k (docs (works st)) <> None ->
               first_match k (docs (works st')) <> None.
Proof.
  intros st'. subst st'.
  destruct (run_works_stored w filter_params pagination sample
              db_name works_name meta_name st) as [rs ->].
  split.
  - rewrite stored_count. lia.
  - intros k. apply stored_present.
Qed.

(** The last record upserted for an [id] is the first document its filter
    matches afterwards. *)
Lemma stored_last (c : collection dict) (rs1 rs2 : list dict) (r : dict) :
  (forall r', In r' rs2 -> key r' <> key r) ->
  first_match (key r) (docs (stored c (rs1 ++ r :: rs2))) = Some r.
Proof.
  intros H. rewrite stored_app, stored_cons, stored_other by exact H.
  apply first_match_upsert.
Qed.

(** X8.  A run that ends without an exception leaves alone the documents
    whose [id] no stale record carries: what a filter on such an [id]
    finds first is what it found before the run. *)
Theorem run_other_ids_untouched (w : world)
    (filter_params pagination sample : dict)
    (q : query) (pager : pager) (W : string) (st st' : state) (k : value) :
  get_query filter_params sample = Ok q ->
  get_pager q pagination = Ok pager ->
  fst (read_watermark w st) = Ok W -> W <> "" ->
  sync w filter_params pagination sample st = (Ok tt, st') ->
  (forall r, In r (retained W (source w pager)) -> key r <> k) ->
  first_match k (docs (works st')) = first_match k (docs (works st)).
Proof.
  intros Hq Hp HW Hne Hs Hk.
  destruct (sync_ok_stored w filter_params pagination sample q pager W st st'
              Hq Hp HW Hne Hs) as [-> _].
  apply stored_other. exact Hk.
Qed.

Lemma run_other_ids_untouched_witness :
  let w := quiet [Page [record_A]] in
  let st' := snd (sync w ∅ page_200 no_sample store_with_old) in
  first_match (VStr "O") (docs (works st')) = Some record_old
  /\ count_documents (works st') = 2%nat.
Proof.
  intros w st'. split; [|vm_compute; reflexivity].
  change (Some record_old)
    with (first_match (VStr "O") (docs (works store_with_old))).
  apply (run_other_ids_untouched w ∅ page_200 no_sample
           (Query ∅ None) (Pager (Query ∅ None) "page" (VInt 200))
           DEFAULT_DATE store_with_old st' (VStr "O"));
    try (vm_compute; reflexivity).
  - discriminate.
  - change (source w (Pager (Query ∅ None) "page" (VInt 200)))
      with [Page [record_A]].
    rewrite retained_record_A. intros r [<-|[]]. vm_compute. discriminate.
Defined.

(** X10.  After a run that ends without an exception, a lookup by the [id]
    of a stale record finds the last version of it the source yielded. *)
Theorem run_last_version_stored (w : world)
    (filter_params pagination sample : dict)
    (q : query) (pager : pager) (W : string) (st st' : state)
    (rs1 rs2 : list dict) (r : dict) :
  get_query filter_params sample = Ok q ->
  get_pager q pagination = Ok pager ->
  fst (read_watermark w st) = Ok W -> W <> "" ->
  sync w filter_params pagination sample st = (Ok tt, st') ->
  retained W (source w pager) = (rs1 ++ r :: rs2)%list ->
  (forall r', In r' rs2 -> key r' <> key r) ->
  first_match (key r) (docs (works st')) = Some r.
Proof.
  intros Hq Hp HW Hne Hs Hr Hlast.
  destruct (sync_ok_stored w filter_params pagination sample q pager W st st'
              Hq Hp HW Hne Hs) as [-> _].
  rewrite Hr. apply stored_last. exact Hlast.
Qed.

Lemma run_last_version_stored_witness :
  let w := quiet [Page [record_A; record_A']] in
  let st' := snd (sync w ∅ page_200 no_sample empty_store) in
  first_match (VStr "A") (docs (works st')) = Some record_A'.
Proof.
  intros w st'.
  apply (run_last_version_stored w ∅ page_200 no_sample
           (Query ∅ None) (Pager (Query ∅ None) "page" (VInt 200))
           DEFAULT_DATE empty_store st' [record_A] [] record_A');
    try (vm_compute; reflexivity).
  - discriminate.
  - intros r' [].
Defined.

(** ** Records the loop cannot process *)

Lemma truthy_nonempty (W : string) : W <> "" -> truthy (VStr W) = true.
Proof. intros H. simpl. destruct W; [congruence | reflexivity]. Qed.

(** With a non-empty watermark and records the filter can all judge, the
    comprehension returns the stale ones and leaves the state alone. *)
Lemma updated_records_judged (w : world) (page : list dict) (W : string)
    (st : state) :
  W <> "" -> Forall (judged W) page ->
  updated_records w page W st = (Ok (filter (stale W) page), st).
Proof.
  intros HW Hj. induction Hj as [|r page [b Hb] _ IH]; [reflexivity|].
  simpl. rewrite bind_run, is_record_updated_truthy, Hb
    by (apply truthy_nonempty; exact HW).
  rewrite bind_run, IH, ret_run, filter_cons.
  destruct (decide (stale W r)) as [Hs|Hs]; unfold stale in Hs;
    rewrite Hb in Hs; destruct b; try reflexivity; [discriminate|].
  exfalso. apply Hs. reflexivity.
Qed.

Lemma updated_records_unjudged (w : world) (p1 p2 : list dict) (bad : dict)
    (W : string) (st : state) (e : exn) :
  W <> "" -> Forall (judged W) p1 ->
  later_than bad (VStr W) = Raise e ->
  updated_records w (p1 ++ bad :: p2) W st = (Raise e, st).
Proof.
  intros HW Hj Hbad. induction Hj as [|r p1 [b Hb] _ IH]; simpl.
  - rewrite bind_run, is_record_updated_truthy, Hbad
      by (apply truthy_nonempty; exact HW).
    reflexivity.
  - rewrite bind_run, is_record_updated_truthy, Hb
      by (apply truthy_nonempty; exact HW).
    rewrite bind_run, IH. reflexivity.
Qed.

(** X11.  A page with a record the filter cannot judge (a missing or
    malformed date) is dropped whole: the loop raises at that page before
    any of its records is upserted, stale records in front of the bad one
    included, and the state is as it was before the page. *)
Theorem page_dropped_whole (w : world) (p1 p2 : list dict) (bad : dict)
    (post : list fetch) (W : string) (responses : list update_result)
    (st : state) (e : exn) :
  W <> "" -> Forall (judged W) p1 ->
  later_than bad (VStr W) = Raise e ->
  for_pages w (Page (p1 ++ bad :: p2) :: post) W responses st = (Raise e, st).
Proof.
  intros HW Hj Hbad. simpl.
  rewrite bind_run, (updated_records_unjudged w p1 p2 bad W st e HW Hj Hbad).
  reflexivity.
Qed.

Lemma page_dropped_whole_witness :
  stale DEFAULT_DATE record_A
  /\ for_pages (quiet []) [Page [record_A; record_bad; record_A']]
       DEFAULT_DATE [] empty_store
     = (Raise (ValueError "yesterday"), empty_store).
Proof.
  split; [vm_compute; reflexivity|].
  apply (page_dropped_whole (quiet []) [record_A] [record_A'] record_bad []
           DEFAULT_DATE [] empty_store (ValueError "yesterday")).
  - discriminate.
  - repeat constructor. exists true. vm_compute. reflexivity.
  - vm_compute. reflexivity.
Defined.

(** The upserts up to a record without [id], when no command fails. *)
Lemma upsert_all_no_id (w : world) (rs1 rs2 : list dict) (r : dict)
    (responses : list update_result) (st : state) :
  Forall (fun r' => is_Some (r' !! "id")) rs1 ->
  r !! "id" = None ->
  (forall n, (n < length rs1)%nat -> db_fault w (ops st + n) = None) ->
  exists st',
    upsert_all w (rs1 ++ r :: rs2) responses st = (Raise (KeyError "id"), st')
    /\ works st' = stored (works st) rs1 /\ meta st' = meta st.
Proof.
  intros Hid Hr. revert responses st.
  induction Hid as [|r1 rs1 [k Hk] _ IH]; intros responses st Hdb; simpl.
  - exists st. rewrite bind_run, lift_run. unfold getitem. rewrite Hr. auto.
  - rewrite bind_run, lift_run. unfold getitem. rewrite Hk.
    rewrite bind_run, (works_replace_one_run w r1 k st Hk).
    pose proof (Hdb 0%nat ltac:(simpl; lia)) as H0.
    rewrite Nat.add_0_r in H0. rewrite H0.
    destruct (IH (responses ++ [response_of (classify (works st) r1)])%list
                 (set_works (upsert (works st) r1) (sent st)))
      as (st' & Hrun & Hw & Hm).
    { intros n Hn. cbn [ops set_works sent].
      replace (S (ops st) + n)%nat with (ops st + S n)%nat by lia.
      apply Hdb. simpl. lia. }
    exists st'. split; [exact Hrun|]. split; [exact Hw | exact Hm].
Qed.

(** X12.  A stale record without [id] stops the loop at that record with
    [KeyError]: the stale records in front of it in the page have been
    upserted and stay, the ones behind it have not (no command failing
    meanwhile). *)
Theorem missing_id_mid_page (w : world) (page : list dict)
    (rs1 rs2 : list dict) (r : dict) (post : list fetch) (W : string)
    (responses : list update_result) (st : state) :
  W <> "" -> Forall (judged W) page ->
  filter (stale W) page = (rs1 ++ r :: rs2)%list ->
  Forall (fun r' => is_Some (r' !! "id")) rs1 ->
  r !! "id" = None ->
  (forall n, (n < length rs1)%nat -> db_fault w (ops st + n) = None) ->
  exists st',
    for_pages w (Page page :: post) W responses st = (Raise (KeyError "id"), st')
    /\ works st' = stored (works st) rs1 /\ meta st' = meta st.
Proof.
  intros HW Hj Hf Hid Hr Hdb. simpl.
  rewrite bind_run, (updated_records_judged w page W st HW Hj), Hf.
  destruct (upsert_all_no_id w rs1 rs2 r responses st Hid Hr Hdb)
    as (st' & Hrun & Hw & Hm).
  exists st'. rewrite bind_run, Hrun. auto.
Qed.

Lemma missing_id_mid_page_witness :
  exists st',
    for_pages (quiet []) [Page [record_A; record_old; record_no_id; record_A']]
      DEFAULT_DATE [] empty_store
    = (Raise (KeyError "id"), st')
    /\ works st' = stored (works empty_store) [record_A]
    /\ meta st' = meta empty_store.
Proof.
  apply (missing_id_mid_page (quiet [])
           [record_A; record_old; record_no_id; record_A']
           [record_A] [record_A'] record_no_id [] DEFAULT_DATE [] empty_store).
  - discriminate.
  - repeat constructor; eexists; vm_compute; reflexivity.
  - vm_compute. reflexivity.
  - repeat constructor. eexists. reflexivity.
  - reflexivity.
  - intros n _. reflexivity.
Defined.

(** ** Pages *)

Lemma retained_records_of (W : string) (pages : list fetch) :
  retained W pages = filter (stale W) (records_of pages).
Proof.
  induction pages as [|[p|e] pages IH]; simpl.
  - reflexivity.
  - rewrite filter_app, IH. reflexivity.
  - exact IH.
Qed.

(** X13.  When the page loop ends normally, how the source cut its records
    into pages plays no part: two page sequences with the same records in
    the same order give the same responses and the same target collection
    (with a non-empty watermark). *)
Theorem paging_irrelevant (w : world) (pages1 pages2 : list fetch)
    (W : string) (responses r1 r2 : list update_result) (st st1 st2 : state) :
  W <> "" ->
  records_of pages1 = records_of pages2 ->
  for_pages w pages1 W responses st = (Ok r1, st1) ->
  for_pages w pages2 W responses st = (Ok r2, st2) ->
  r1 = r2 /\ works st1 = works st2 /\ meta st1 = meta st2.
Proof.
  intros HW Hrec H1 H2.
  apply for_pages_ok in H1 as (rs1 & Hw1 & Hm1 & -> & Hs1).
  apply for_pages_ok in H2 as (rs2 & Hw2 & Hm2 & -> & Hs2).
  destruct (Hs1 HW) as [-> _]. destruct (Hs2 HW) as [-> _].
  rewrite !retained_records_of, Hrec in *.
  repeat split; congruence.
Qed.

Lemma paging_irrelevant_witness :
  let one := for_pages (quiet []) [Page [record_A; record_old; record_A']]
               DEFAULT_DATE [] empty_store in
  let two := for_pages (quiet []) [Page [record_A]; Page []; Page [record_old; record_A']]
               DEFAULT_DATE [] empty_store in
  exists r1 r2,
    fst one = Ok r1 /\ fst two = Ok r2 /\ r1 = r2
    /\ works (snd one) = works (snd two) /\ meta (snd one) = meta (snd two).
Proof.
  intros one two.
  pose (r1 := [UpdateResult false 0; UpdateResult true 1]).
  exists r1, r1.
  assert (H1 : one = (Ok r1, snd one)) by (vm_compute; reflexivity).
  assert (H2 : two = (Ok r1, snd two)) by (vm_compute; reflexivity).
  split; [rewrite H1; reflexivity|]. split; [rewrite H2; reflexivity|].
  apply (paging_irrelevant (quiet [])
           [Page [record_A; record_old; record_A']]
           [Page [record_A]; Page []; Page [record_old; record_A']]
           DEFAULT_DATE [] r1 r1 empty_store (snd one) (snd two)).
  - discriminate.
  - reflexivity.
  - exact H1.
  - exact H2.
Defined.

